(** * GazeboMavlinkInterface: transport, framing and HIL codec

    A shallow embedding of [src/gazebo_mavlink_interface.cpp] and
    [include/gazebo_mavlink_interface.h].

    Conventions.
    - The plugin object is a record; every member function is a function
      from the record to the record.  What the plugin does to the outside
      world (posted io_service handlers, [async_write_some] requests,
      [sendto] calls, published motor commands, log lines) is appended to
      trace fields of the record, oldest first.
    - [uint8_t] bytes, ports and sizes are [Z]; wrap-around is written out
      where the source has it.
    - [double] and [float] values are idealised as exact rationals [Q]:
      rounding is not modelled.
    - [common::Time] is a number of nanoseconds of simulation time. *)

From Stdlib Require Import ZArith QArith Qabs List Bool Lia Lqa.
From stdpp Require Import base option list strings gmap.
Import ListNotations.

Local Open Scope Z_scope.

(** ** The MAVLink C library *)

(** [mavlink_message_t] of [mavlink_types.h] (MAVLink v2). *)
Record mavlink_message_t := {
  checksum : Z;
  magic : Z;
  len : Z;
  incompat_flags : Z;
  compat_flags : Z;
  seq : Z;
  sysid : Z;
  compid : Z;
  msgid : Z;
  payload64 : list Z;
  ck : list Z;
  signature : list Z
}.

Inductive mavlink_parse_state_t :=
| MAVLINK_PARSE_STATE_UNINIT
| MAVLINK_PARSE_STATE_IDLE
| MAVLINK_PARSE_STATE_GOT_STX
| MAVLINK_PARSE_STATE_GOT_LENGTH
| MAVLINK_PARSE_STATE_GOT_INCOMPAT_FLAGS
| MAVLINK_PARSE_STATE_GOT_COMPAT_FLAGS
| MAVLINK_PARSE_STATE_GOT_SEQ
| MAVLINK_PARSE_STATE_GOT_SYSID
| MAVLINK_PARSE_STATE_GOT_COMPID
| MAVLINK_PARSE_STATE_GOT_MSGID1
| MAVLINK_PARSE_STATE_GOT_MSGID2
| MAVLINK_PARSE_STATE_GOT_MSGID3
| MAVLINK_PARSE_STATE_GOT_PAYLOAD
| MAVLINK_PARSE_STATE_GOT_CRC1
| MAVLINK_PARSE_STATE_GOT_BAD_CRC1
| MAVLINK_PARSE_STATE_SIGNATURE_WAIT.

(** [enum class Framing] of the header, the values of
    [mavlink_framing_t]. *)
Inductive Framing :=
| incomplete
| ok
| bad_crc
| bad_signature.

Definition Framing_eqb (a b : Framing) : bool :=
  match a, b with
  | incomplete, incomplete | ok, ok
  | bad_crc, bad_crc | bad_signature, bad_signature => true
  | _, _ => false
  end.

(** [mavlink_status_t]; [flags] and the counters the framer keeps for
    itself are in [packet_idx] .. [signature_wait]. *)
Record mavlink_status_t := {
  msg_received : Framing;
  buffer_overrun : Z;
  parse_error : Z;
  parse_state : mavlink_parse_state_t;
  packet_idx : Z;
  current_rx_seq : Z;
  packet_rx_success_count : Z;
  packet_rx_drop_count : Z;
  flags : Z;
  signature_wait : Z
}.

(** [mavlink_hil_actuator_controls_t]: sixteen [float] controls and the
    [uint8_t] mode bitmask. *)
Record mavlink_hil_actuator_controls_t := {
  hac_time_usec : Z;
  hac_flags : Z;
  controls : list Q;
  mode : Z
}.

(** [math::Vector3]. *)
Record Vector3 := {
  vx : Q;
  vy : Q;
  vz : Q
}.

(** [mavlink_hil_sensor_t]. *)
Record mavlink_hil_sensor_t := {
  hs_time_usec : Z;
  xacc : Q; yacc : Q; zacc : Q;
  xgyro : Q; ygyro : Q; zgyro : Q;
  xmag : Q; ymag : Q; zmag : Q;
  abs_pressure : Q;
  diff_pressure : Q;
  pressure_alt : Q;
  temperature : Q;
  fields_updated : Z
}.

(** [mavlink_hil_state_quaternion_t]: the stamp, the body rates and the
    ground-truth position; the remaining fields are unit conversions of
    the pose and velocity of the model, kept together in [hq_rest]. *)
Record mavlink_hil_state_quaternion_t := {
  hq_time_usec : Z;
  rollspeed : Q; pitchspeed : Q; yawspeed : Q;
  hq_lat : Q; hq_lon : Q; hq_alt : Q;
  hq_rest : list Q
}.

(** [mavlink_hil_optical_flow_t]. *)
Record mavlink_hil_optical_flow_t := {
  of_time_usec : Z;
  of_sensor_id : Z;
  integration_time_us : Z;
  integrated_x : Q; integrated_y : Q;
  integrated_xgyro : Q; integrated_ygyro : Q; integrated_zgyro : Q;
  of_temperature : Z;
  of_quality : Z;
  time_delta_distance_us : Z;
  of_distance : Q
}.

Definition MAVLINK_STX : Z := 253.
Definition X25_INIT_CRC : Z := 65535.
Definition MAV_MODE_FLAG_SAFETY_ARMED : Z := 128.
Definition MAVLINK_MSG_ID_HIL_ACTUATOR_CONTROLS : Z := 93.

(** The functions of the library the plugin calls and whose bodies are
    not part of the plugin: the wire serialiser, the payload decoder and
    encoders (system 1, component 200, channel MAVLINK_COMM_0) and the
    two byte-at-a-time parsers.  [mavlink_frame_char_buffer rxmsg
    status c r_message] returns the framing result with the updated
    receive buffer, status and output message; [mavlink_parse_char] keeps
    the state of channel MAVLINK_COMM_0 in a value of [mavlink_channel]. *)
Class MavlinkLib := {
  mavlink_msg_to_send_buffer : mavlink_message_t → list Z;
  mavlink_msg_hil_actuator_controls_decode :
    mavlink_message_t → mavlink_hil_actuator_controls_t;
  mavlink_msg_hil_sensor_encode_chan :
    mavlink_hil_sensor_t → mavlink_message_t;
  mavlink_msg_hil_state_quaternion_encode_chan :
    mavlink_hil_state_quaternion_t → mavlink_message_t;
  mavlink_msg_hil_optical_flow_encode_chan :
    mavlink_hil_optical_flow_t → mavlink_message_t;
  mavlink_frame_char_buffer :
    mavlink_message_t → mavlink_status_t → Z → mavlink_message_t →
    Framing * mavlink_message_t * mavlink_status_t * mavlink_message_t;
  mavlink_channel : Type;
  mavlink_parse_char :
    mavlink_channel → Z → option mavlink_message_t * mavlink_channel
}.

Definition set_checksum (v : Z) (m : mavlink_message_t) : mavlink_message_t :=
  {| checksum := v; magic := magic m; len := len m;
     incompat_flags := incompat_flags m; compat_flags := compat_flags m;
     seq := seq m; sysid := sysid m; compid := compid m; msgid := msgid m;
     payload64 := payload64 m; ck := ck m; signature := signature m |}.

Definition set_len (v : Z) (m : mavlink_message_t) : mavlink_message_t :=
  {| checksum := checksum m; magic := magic m; len := v;
     incompat_flags := incompat_flags m; compat_flags := compat_flags m;
     seq := seq m; sysid := sysid m; compid := compid m; msgid := msgid m;
     payload64 := payload64 m; ck := ck m; signature := signature m |}.

(** [mavlink_start_checksum]: [crc_init(&msg->checksum)]. *)
Definition mavlink_start_checksum (m : mavlink_message_t) : mavlink_message_t :=
  set_checksum X25_INIT_CRC m.

Definition set_parse_state (p : mavlink_parse_state_t) (s : mavlink_status_t)
  : mavlink_status_t :=
  {| msg_received := msg_received s; buffer_overrun := buffer_overrun s;
     parse_error := parse_error s; parse_state := p;
     packet_idx := packet_idx s; current_rx_seq := current_rx_seq s;
     packet_rx_success_count := packet_rx_success_count s;
     packet_rx_drop_count := packet_rx_drop_count s; flags := flags s;
     signature_wait := signature_wait s |}.

Definition set_msg_received (r : Framing) (s : mavlink_status_t)
  : mavlink_status_t :=
  {| msg_received := r; buffer_overrun := buffer_overrun s;
     parse_error := parse_error s; parse_state := parse_state s;
     packet_idx := packet_idx s; current_rx_seq := current_rx_seq s;
     packet_rx_success_count := packet_rx_success_count s;
     packet_rx_drop_count := packet_rx_drop_count s; flags := flags s;
     signature_wait := signature_wait s |}.

(** [_mav_parse_error]: [status->parse_error++]. *)
Definition _mav_parse_error (s : mavlink_status_t) : mavlink_status_t :=
  {| msg_received := msg_received s; buffer_overrun := buffer_overrun s;
     parse_error := parse_error s + 1; parse_state := parse_state s;
     packet_idx := packet_idx s; current_rx_seq := current_rx_seq s;
     packet_rx_success_count := packet_rx_success_count s;
     packet_rx_drop_count := packet_rx_drop_count s; flags := flags s;
     signature_wait := signature_wait s |}.

(** ** Pending frames *)

(** Modelled from the spec: [msgbuffer.h], which declares [MsgBuffer], is
    not among the sources.  A pending frame is the encoded frame with a
    cursor marking write progress; the frame is finished when the cursor
    equals its length. *)
Record MsgBuffer := {
  data : list Z;
  buf_len : Z;
  pos : Z
}.

(** [nbytes()]: what is left to write. *)
Definition nbytes (b : MsgBuffer) : Z := buf_len b - pos b.

(** [dpos()] with [nbytes()]: the bytes left to write. *)
Definition dpos (b : MsgBuffer) : list Z :=
  firstn (Z.to_nat (nbytes b)) (skipn (Z.to_nat (pos b)) (data b)).

Definition advance (n : Z) (b : MsgBuffer) : MsgBuffer :=
  {| data := data b; buf_len := buf_len b; pos := pos b + n |}.

(** The constructor of [MsgBuffer] from a message: the frame is
    serialised once, the cursor starts at zero. *)
Definition MsgBuffer_of `{L : MavlinkLib} (message : mavlink_message_t) : MsgBuffer :=
  let bytes := mavlink_msg_to_send_buffer message in
  {| data := bytes; buf_len := Z.of_nat (length bytes); pos := 0 |}.

(** ** Transport state *)

Definition MAX_TXQ_SIZE : Z := 1000.
Definition kDefaultMavlinkUdpPort : Z := 14560.
Definition kDefaultQGCUdpPort : Z := 14550.

Record sockaddr_in := {
  sin_addr : Z;
  sin_port : Z
}.

(** [htons] on an [int] port: the low sixteen bits (byte order is not
    modelled). *)
Definition htons (p : Z) : Z := p mod 65536.

(** Handlers handed to [io_service.post]. *)
Inductive io_task :=
| Task_do_write (check_tx_state : bool).

Record transport := {
  serial_enabled_ : bool;
  dev_open : bool;                       (* serial_dev.is_open *)
  tx_in_progress : bool;
  tx_q : list MsgBuffer;
  _srcaddr : sockaddr_in;
  qgc_udp_port_ : Z;
  (* the asynchronous write the device is working on, if any *)
  inflight : option (list Z);
  (* traces *)
  posted : list io_task;                 (* io_service.post *)
  writes : list (list Z);                (* async_write_some *)
  sent : list (sockaddr_in * list Z);    (* sendto *)
  log : list string
}.

Definition set_tx_q (q : list MsgBuffer) (t : transport) : transport :=
  {| serial_enabled_ := serial_enabled_ t; dev_open := dev_open t;
     tx_in_progress := tx_in_progress t; tx_q := q; _srcaddr := _srcaddr t;
     qgc_udp_port_ := qgc_udp_port_ t; inflight := inflight t;
     posted := posted t; writes := writes t; sent := sent t; log := log t |}.

Definition set_tx_in_progress (b : bool) (t : transport) : transport :=
  {| serial_enabled_ := serial_enabled_ t; dev_open := dev_open t;
     tx_in_progress := b; tx_q := tx_q t; _srcaddr := _srcaddr t;
     qgc_udp_port_ := qgc_udp_port_ t; inflight := inflight t;
     posted := posted t; writes := writes t; sent := sent t; log := log t |}.

Definition set_srcaddr (a : sockaddr_in) (t : transport) : transport :=
  {| serial_enabled_ := serial_enabled_ t; dev_open := dev_open t;
     tx_in_progress := tx_in_progress t; tx_q := tx_q t; _srcaddr := a;
     qgc_udp_port_ := qgc_udp_port_ t; inflight := inflight t;
     posted := posted t; writes := writes t; sent := sent t; log := log t |}.

Definition set_inflight (w : option (list Z)) (t : transport) : transport :=
  {| serial_enabled_ := serial_enabled_ t; dev_open := dev_open t;
     tx_in_progress := tx_in_progress t; tx_q := tx_q t; _srcaddr := _srcaddr t;
     qgc_udp_port_ := qgc_udp_port_ t; inflight := w;
     posted := posted t; writes := writes t; sent := sent t; log := log t |}.

Definition set_posted (p : list io_task) (t : transport) : transport :=
  {| serial_enabled_ := serial_enabled_ t; dev_open := dev_open t;
     tx_in_progress := tx_in_progress t; tx_q := tx_q t; _srcaddr := _srcaddr t;
     qgc_udp_port_ := qgc_udp_port_ t; inflight := inflight t;
     posted := p; writes := writes t; sent := sent t; log := log t |}.

(** [io_service.post(h)]. *)
Definition post (h : io_task) (t : transport) : transport :=
  set_posted (posted t ++ [h]) t.

(** [serial_dev.async_write_some(buffer, handler)]: the request is
    recorded and becomes the write in flight. *)
Definition async_write_some (buffer : list Z) (t : transport) : transport :=
  {| serial_enabled_ := serial_enabled_ t; dev_open := dev_open t;
     tx_in_progress := tx_in_progress t; tx_q := tx_q t; _srcaddr := _srcaddr t;
     qgc_udp_port_ := qgc_udp_port_ t; inflight := Some buffer;
     posted := posted t; writes := writes t ++ [buffer]; sent := sent t;
     log := log t |}.

(** [sendto(_fd, buffer, packetlen, 0, addr, ...)]; its return value only
    drives a diagnostic print. *)
Definition sendto (buffer : list Z) (addr : sockaddr_in) (t : transport)
  : transport :=
  {| serial_enabled_ := serial_enabled_ t; dev_open := dev_open t;
     tx_in_progress := tx_in_progress t; tx_q := tx_q t; _srcaddr := _srcaddr t;
     qgc_udp_port_ := qgc_udp_port_ t; inflight := inflight t;
     posted := posted t; writes := writes t;
     sent := sent t ++ [(addr, buffer)]; log := log t |}.

(** [gzerr << s]. *)
Definition gzerr (s : string) (t : transport) : transport :=
  {| serial_enabled_ := serial_enabled_ t; dev_open := dev_open t;
     tx_in_progress := tx_in_progress t; tx_q := tx_q t; _srcaddr := _srcaddr t;
     qgc_udp_port_ := qgc_udp_port_ t; inflight := inflight t;
     posted := posted t; writes := writes t; sent := sent t;
     log := log t ++ [s] |}.

Section Transport.
Context `{L : MavlinkLib}.

(** [send_mavlink_message(message, destination_port)].  The overflow
    test is there with an empty body, and [dest_addr] is filled in but
    [sendto] is given [_srcaddr]: both are kept as the source has them. *)
Definition send_mavlink_message (message : mavlink_message_t)
    (destination_port : Z) (t : transport) : transport :=
  if serial_enabled_ t && (destination_port =? 0) then
    if negb (dev_open t) then gzerr "Serial port closed!" t
    else
      let t :=
        if MAX_TXQ_SIZE <=? Z.of_nat (length (tx_q t))
        then t      (* gzwarn << "TX queue overflow." is commented out *)
        else t in
      let t := set_tx_q (tx_q t ++ [MsgBuffer_of message]) t in
      post (Task_do_write true) t
  else
    let buffer := mavlink_msg_to_send_buffer message in
    let dest_addr :=
      if negb (destination_port =? 0)
      then {| sin_addr := sin_addr (_srcaddr t);
              sin_port := htons destination_port |}
      else _srcaddr t in
    sendto buffer (_srcaddr t) t.

(** [do_write(check_tx_state)] up to the point where the asynchronous
    write is handed to the device. *)
Definition do_write (check_tx_state : bool) (t : transport) : transport :=
  if check_tx_state && tx_in_progress t then t
  else
    match tx_q t with
    | [] => t
    | buf_ref :: _ =>
        async_write_some (dpos buf_ref) (set_tx_in_progress true t)
    end.

(** The completion handler of [do_write]'s [async_write_some].
    [buf_ref] refers to the element that was at the front when the write
    was started; only this handler pops the queue, so it is still the
    front.  [None] is a failed [assert]; with an empty queue there is no
    element for the assertion to read and the model goes on to the tests
    that follow it. *)
Definition do_write_handler (error : bool) (bytes_transferred : Z)
    (t : transport) : option transport :=
  let t := set_inflight None t in
  match tx_q t with
  | [] =>
      if error then Some (gzerr "Serial error" t)
      else Some (set_tx_in_progress false t)
  | buf_ref :: rest =>
      if negb (bytes_transferred <=? buf_len buf_ref) then None
      else if error then Some (gzerr "Serial error" t)
      else
        let buf_ref := advance bytes_transferred buf_ref in
        let t :=
          if nbytes buf_ref =? 0 then set_tx_q rest t
          else set_tx_q (buf_ref :: rest) t in
        if negb (match tx_q t with [] => true | _ => false end)
        then Some (do_write false t)
        else Some (set_tx_in_progress false t)
  end.

(** What can happen to the serial side: the simulation thread sends a
    frame, the io thread runs the next posted handler, or the device
    completes the write in flight (without one in flight there is
    nothing to complete). *)
Inductive io_event :=
| Ev_send (message : mavlink_message_t) (destination_port : Z)
| Ev_run_posted
| Ev_write_done (error : bool) (bytes_transferred : Z).

Definition io_step (e : io_event) (t : transport) : option transport :=
  match e with
  | Ev_send message port => Some (send_mavlink_message message port t)
  | Ev_run_posted =>
      match posted t with
      | [] => Some t
      | Task_do_write c :: rest => Some (do_write c (set_posted rest t))
      end
  | Ev_write_done error n =>
      match inflight t with
      | None => Some t
      | Some _ => do_write_handler error n t
      end
  end.

Fixpoint io_run (es : list io_event) (t : transport) : option transport :=
  match es with
  | [] => Some t
  | e :: es => t' ← io_step e t; io_run es t'
  end.

End Transport.

(** ** Simulation time *)

(** [common::Time::Double()]: seconds. *)
Definition Double (t : Z) : Q := t # 1000000000.

(** [world_->GetSimTime().Double() * 1e6] stored in a [uint64_t]. *)
Definition time_usec_of (t : Z) : Z := Z.quot t 1000.

Definition uint32 (z : Z) : Z := z mod 4294967296.

(** ** Actuator reference *)

Definition n_out_max : nat := 16.

Record actuators := {
  received_first_referenc_ : bool;
  input_reference_ : list Q;
  input_index_ : list Z;
  input_offset_ : list Q;
  input_scaling_ : list Q;
  zero_position_disarmed_ : list Q;
  zero_position_armed_ : list Q;
  last_actuator_time_ : Z
}.

(** ** Sensor encoder state *)

Record sensors := {
  last_imu_time_ : Z;
  imu_update_interval_ : Q;
  hil_mode_ : bool;
  hil_state_level_ : bool;
  optflow_gyro : Vector3;
  (* [static uint32_t last_dt_us] of ImuCallback: None until the
     declaration is first reached *)
  last_dt_us : option Z;
  optflow_distance : Q
}.

Definition Vector3_zero : Vector3 := {| vx := 0; vy := 0; vz := 0 |}.

(** [Vector3::operator+] and [Vector3::operator*(double)]. *)
Definition Vector3_add (a b : Vector3) : Vector3 :=
  {| vx := vx a + vx b; vy := vy a + vy b; vz := vz a + vz b |}%Q.

Definition Vector3_scale (a : Vector3) (k : Q) : Vector3 :=
  {| vx := vx a * k; vy := vy a * k; vz := vz a * k |}%Q.

(** Squared [GetLength()]. *)
Definition Vector3_norm2 (a : Vector3) : Q :=
  (vx a * vx a + vy a * vy a + vz a * vz a)%Q.

(** What an IMU callback works from.  The three reads of the simulation
    clock are kept apart.  Body-frame vectors, the barometer values and
    the ground-truth fields are the results of the frame and unit
    conversions at the top of [ImuCallback]. *)
Record imu_sample := {
  current_time : Z;
  stamp_sensor : Z;
  stamp_state : Z;
  accel_b : Vector3;
  gyro_b : Vector3;
  mag_b : Vector3;
  omega_nb_b : Vector3;
  baro_abs_pressure : Q;
  baro_diff_pressure : Q;
  baro_pressure_alt : Q;
  baro_temperature : Q;
  truth_lat : Q; truth_lon : Q; truth_alt : Q;
  truth_rest : list Q
}.

Record flow_sample := {
  flow_now : Z;
  flow_sensor_id : Z;
  flow_integration_time_us : Z;
  flow_integrated_x : Q;
  flow_integrated_y : Q;
  flow_temperature : Z;
  flow_quality : Z;
  flow_time_delta_distance_us : Z
}.

(** A frame built by one of the encoders and handed to
    [send_mavlink_message]. *)
Inductive hil_out :=
| Out_hil_sensor (m : mavlink_hil_sensor_t)
| Out_hil_state_quaternion (m : mavlink_hil_state_quaternion_t)
| Out_hil_optical_flow (m : mavlink_hil_optical_flow_t).

(** The [if (hil_mode_) { if (c) send } else send] pattern. *)
Definition hil_gate (hil_mode level_ok : bool) (o : hil_out) : list hil_out :=
  if hil_mode then (if level_ok then [o] else []) else [o].

(** The rate gate of [ImuCallback]. *)
Definition imu_gate (s : sensors) (i : imu_sample) : bool :=
  let dt := Double (current_time i - last_imu_time_ s) in
  negb (Qeq_bool (imu_update_interval_ s) 0)
  && Qle_bool (imu_update_interval_ s) dt.

(** The elapsed microseconds [dt_us] of the gyro accumulation, with the
    function-local static initialised on first use. *)
Definition gyro_last (s : sensors) (time_usec : Z) : Z :=
  match last_dt_us s with
  | None => uint32 time_usec
  | Some l => l
  end.

Definition gyro_dt_us (s : sensors) (time_usec : Z) : Z :=
  uint32 (time_usec - gyro_last s time_usec).

(** [ImuCallback]: the new encoder state and the frames sent, in
    order. *)
Definition ImuCallback_frames (i : imu_sample) (s : sensors)
  : sensors * list hil_out :=
  let '(s, out_sensor) :=
    if imu_gate s i then
      let sensor_msg :=
        {| hs_time_usec := time_usec_of (stamp_sensor i);
           xacc := vx (accel_b i); yacc := vy (accel_b i);
           zacc := vz (accel_b i);
           xgyro := vx (gyro_b i); ygyro := vy (gyro_b i);
           zgyro := vz (gyro_b i);
           xmag := vx (mag_b i); ymag := vy (mag_b i); zmag := vz (mag_b i);
           abs_pressure := baro_abs_pressure i;
           diff_pressure := baro_diff_pressure i;
           pressure_alt := baro_pressure_alt i;
           temperature := baro_temperature i;
           fields_updated := 4095 |} in
      let last := gyro_last s (hs_time_usec sensor_msg) in
      let dt_us := gyro_dt_us s (hs_time_usec sensor_msg) in
      let '(gyro, last) :=
        if 1000 <? dt_us then
          (Vector3_add (optflow_gyro s)
             (Vector3_scale (gyro_b i) (inject_Z dt_us / 1000000)),
           uint32 (hs_time_usec sensor_msg))
        else (optflow_gyro s, last) in
      ({| last_imu_time_ := current_time i;
          imu_update_interval_ := imu_update_interval_ s;
          hil_mode_ := hil_mode_ s; hil_state_level_ := hil_state_level_ s;
          optflow_gyro := gyro; last_dt_us := Some last;
          optflow_distance := optflow_distance s |},
       hil_gate (hil_mode_ s) (negb (hil_state_level_ s))
         (Out_hil_sensor sensor_msg))
    else (s, []) in
  let hil_state_quat :=
    {| hq_time_usec := time_usec_of (stamp_state i);
       rollspeed := vx (omega_nb_b i); pitchspeed := vy (omega_nb_b i);
       yawspeed := vz (omega_nb_b i);
       hq_lat := truth_lat i; hq_lon := truth_lon i; hq_alt := truth_alt i;
       hq_rest := truth_rest i |} in
  (s, out_sensor ++
      hil_gate (hil_mode_ s) (hil_state_level_ s)
        (Out_hil_state_quaternion hil_state_quat)).

(** [OpticalFlowCallback]. *)
Definition OpticalFlowCallback_frames (f : flow_sample) (s : sensors)
  : sensors * list hil_out :=
  let q := negb (flow_quality f =? 0) in
  let sensor_msg :=
    {| of_time_usec := time_usec_of (flow_now f);
       of_sensor_id := flow_sensor_id f;
       integration_time_us := flow_integration_time_us f;
       integrated_x := flow_integrated_x f;
       integrated_y := flow_integrated_y f;
       integrated_xgyro := if q then - vy (optflow_gyro s) else 0;
       integrated_ygyro := if q then vx (optflow_gyro s) else 0;
       integrated_zgyro := if q then - vz (optflow_gyro s) else 0;
       of_temperature := flow_temperature f;
       of_quality := flow_quality f;
       time_delta_distance_us := flow_time_delta_distance_us f;
       of_distance := optflow_distance s |}%Q in
  ({| last_imu_time_ := last_imu_time_ s;
      imu_update_interval_ := imu_update_interval_ s;
      hil_mode_ := hil_mode_ s; hil_state_level_ := hil_state_level_ s;
      optflow_gyro := Vector3_zero;          (* optflow_gyro.Set() *)
      last_dt_us := last_dt_us s;
      optflow_distance := optflow_distance s |},
   [Out_hil_optical_flow sensor_msg]).

(** ** The plugin *)

Record plugin `{L : MavlinkLib} := {
  link : transport;
  m_status : mavlink_status_t;
  m_buffer : mavlink_message_t;
  chan0 : mavlink_channel;               (* MAVLINK_COMM_0 *)
  act : actuators;
  sens : sensors;
  last_time_ : Z;
  (* CommandMotorSpeed messages published, oldest first *)
  published : list (list Q)
}.

Section Plugin.
Context `{L : MavlinkLib}.

Definition set_link (t : transport) (p : plugin) : plugin :=
  {| link := t; m_status := m_status p; m_buffer := m_buffer p;
     chan0 := chan0 p; act := act p; sens := sens p;
     last_time_ := last_time_ p; published := published p |}.

Definition set_act (a : actuators) (p : plugin) : plugin :=
  {| link := link p; m_status := m_status p; m_buffer := m_buffer p;
     chan0 := chan0 p; act := a; sens := sens p;
     last_time_ := last_time_ p; published := published p |}.

Definition set_sens (s : sensors) (p : plugin) : plugin :=
  {| link := link p; m_status := m_status p; m_buffer := m_buffer p;
     chan0 := chan0 p; act := act p; sens := s;
     last_time_ := last_time_ p; published := published p |}.

Definition set_rx (st : mavlink_status_t) (b : mavlink_message_t)
    (p : plugin) : plugin :=
  {| link := link p; m_status := st; m_buffer := b;
     chan0 := chan0 p; act := act p; sens := sens p;
     last_time_ := last_time_ p; published := published p |}.

Definition set_chan0 (c : mavlink_channel) (p : plugin) : plugin :=
  {| link := link p; m_status := m_status p; m_buffer := m_buffer p;
     chan0 := c; act := act p; sens := sens p;
     last_time_ := last_time_ p; published := published p |}.

(** [handle_message]; [now] is [world_->GetSimTime()].  The arrays have
    [n_out_max] entries, so every index below is in range. *)
Definition handle_message (now : Z) (msg : mavlink_message_t)
    (a : actuators) : actuators :=
  if msgid msg =? MAVLINK_MSG_ID_HIL_ACTUATOR_CONTROLS then
    let controls_ := mavlink_msg_hil_actuator_controls_decode msg in
    let armed := 0 <? Z.land (mode controls_) MAV_MODE_FLAG_SAFETY_ARMED in
    let input_index := map Z.of_nat (List.seq 0 n_out_max) in
    let reference (i : nat) : Q :=
      if armed then
        ((nth (Z.to_nat (nth i input_index 0%Z)) (controls controls_) 0
          + nth i (input_offset_ a) 0)
         * nth i (input_scaling_ a) 0 + nth i (zero_position_armed_ a) 0)%Q
      else nth i (zero_position_disarmed_ a) 0%Q in
    {| received_first_referenc_ := true;
       input_reference_ := map reference (List.seq 0 n_out_max);
       input_index_ := input_index;
       input_offset_ := input_offset_ a;
       input_scaling_ := input_scaling_ a;
       zero_position_disarmed_ := zero_position_disarmed_ a;
       zero_position_armed_ := zero_position_armed_ a;
       last_actuator_time_ := now |}
  else a.

(** The plugin-level [send_mavlink_message]. *)
Definition send (message : mavlink_message_t) (destination_port : Z)
    (p : plugin) : plugin :=
  set_link (send_mavlink_message message destination_port (link p)) p.

(** One turn of the loop of [parse_buffer] on the byte [c]; [message] is
    the local the framer writes into, which lives across the turns. *)
Definition parse_byte (now : Z) (c : Z)
    (pm : plugin * mavlink_message_t) : plugin * mavlink_message_t :=
  let '(p, message) := pm in
  let '(msg_received, buffer, status, message) :=
    mavlink_frame_char_buffer (m_buffer p) (m_status p) c message in
  let '(status, buffer) :=
    if Framing_eqb msg_received bad_crc
       || Framing_eqb msg_received bad_signature then
      let status := _mav_parse_error status in
      let status := set_msg_received incomplete status in
      let status := set_parse_state MAVLINK_PARSE_STATE_IDLE status in
      if c =? MAVLINK_STX then
        (set_parse_state MAVLINK_PARSE_STATE_GOT_STX status,
         mavlink_start_checksum (set_len 0 buffer))
      else (status, buffer)
    else (status, buffer) in
  let p := set_rx status buffer p in
  let p :=
    if negb (Framing_eqb msg_received incomplete) then
      let p := send message (qgc_udp_port_ (link p)) p in
      set_act (handle_message now message (act p)) p
    else p in
  (p, message).

(** [parse_buffer] on the bytes the read delivered; [do_read()] at its
    end re-arms the read and changes nothing here. *)
Definition parse_buffer (now : Z) (bytes : list Z)
    (pm : plugin * mavlink_message_t) : plugin * mavlink_message_t :=
  fold_left (λ pm c, parse_byte now c pm) bytes pm.

(** [pollForMAVLinkMessages]: [dgram] is what [recvfrom] delivers when
    the socket polls readable, with the address of its sender. *)
Definition poll_byte (now : Z) (p : plugin) (c : Z) : plugin :=
  let '(r, ch) := mavlink_parse_char (chan0 p) c in
  let p := set_chan0 ch p in
  match r with
  | Some msg =>
      let p := if serial_enabled_ (link p) then send msg 0 p else p in
      set_act (handle_message now msg (act p)) p
  | None => p
  end.

Definition pollForMAVLinkMessages (now : Z)
    (dgram : option (sockaddr_in * list Z)) (p : plugin) : plugin :=
  match dgram with
  | None => p
  | Some (src, bytes) =>
      let p := set_link (set_srcaddr src (link p)) p in
      fold_left (poll_byte now) bytes p
  end.

(** The motor-speed command of [OnUpdate]. *)
Definition stale (current_time : Z) (a : actuators) : bool :=
  (last_actuator_time_ a =? 0)
  || negb (Qle_bool (Double (current_time - last_actuator_time_ a)) (2 # 10)).

Definition turning_velocities (current_time : Z) (a : actuators) : list Q :=
  map (λ x, if stale current_time a then 0%Q else x) (input_reference_ a).

(** [OnUpdate].  [handle_control] drives the joints of the physics
    engine from [input_reference_] and writes no field of the plugin. *)
Definition OnUpdate (current_time : Z)
    (dgram : option (sockaddr_in * list Z)) (p : plugin) : plugin :=
  let p := pollForMAVLinkMessages current_time dgram p in
  let pub :=
    if received_first_referenc_ (act p)
    then published p ++ [turning_velocities current_time (act p)]
    else published p in
  {| link := link p; m_status := m_status p; m_buffer := m_buffer p;
     chan0 := chan0 p; act := act p; sens := sens p;
     last_time_ := current_time; published := pub |}.

(** The encoder callbacks on the plugin: every frame goes through
    [send_mavlink_message] with the default port. *)
Definition encode (o : hil_out) : mavlink_message_t :=
  match o with
  | Out_hil_sensor m => mavlink_msg_hil_sensor_encode_chan m
  | Out_hil_state_quaternion m => mavlink_msg_hil_state_quaternion_encode_chan m
  | Out_hil_optical_flow m => mavlink_msg_hil_optical_flow_encode_chan m
  end.

Definition send_all (out : list hil_out) (p : plugin) : plugin :=
  fold_left (λ p o, send (encode o) 0 p) out p.

Definition ImuCallback (i : imu_sample) (p : plugin) : plugin :=
  let '(s, out) := ImuCallback_frames i (sens p) in
  send_all out (set_sens s p).

Definition OpticalFlowCallback (f : flow_sample) (p : plugin) : plugin :=
  let '(s, out) := OpticalFlowCallback_frames f (sens p) in
  send_all out (set_sens s p).

End Plugin.

(** ** Construction and configuration *)

Definition zero_status : mavlink_status_t :=
  {| msg_received := incomplete; buffer_overrun := 0; parse_error := 0;
     parse_state := MAVLINK_PARSE_STATE_UNINIT; packet_idx := 0;
     current_rx_seq := 0; packet_rx_success_count := 0;
     packet_rx_drop_count := 0; flags := 0; signature_wait := 0 |}.

Definition zero_message : mavlink_message_t :=
  {| checksum := 0; magic := 0; len := 0; incompat_flags := 0;
     compat_flags := 0; seq := 0; sysid := 0; compid := 0; msgid := 0;
     payload64 := []; ck := []; signature := [] |}.

(** The member initialisers of the constructor and of the class body.
    [tx_in_progress] has none: [tx0] is whatever it holds. *)
Definition new_transport (tx0 : bool) : transport :=
  {| serial_enabled_ := false; dev_open := false; tx_in_progress := tx0;
     tx_q := []; _srcaddr := {| sin_addr := 0; sin_port := 0 |};
     qgc_udp_port_ := kDefaultMavlinkUdpPort; inflight := None;
     posted := []; writes := []; sent := []; log := [] |}.

Definition new_actuators : actuators :=
  {| received_first_referenc_ := false;
     input_reference_ := repeat 0%Q n_out_max;
     input_index_ := repeat 0 n_out_max;
     input_offset_ := repeat 0%Q n_out_max;
     input_scaling_ := repeat 0%Q n_out_max;
     zero_position_disarmed_ := repeat 0%Q n_out_max;
     zero_position_armed_ := repeat 0%Q n_out_max;
     last_actuator_time_ := 0 |}.

Definition new_sensors : sensors :=
  {| last_imu_time_ := 0; imu_update_interval_ := 4 # 1000;
     hil_mode_ := false; hil_state_level_ := false;
     optflow_gyro := Vector3_zero; last_dt_us := None;
     optflow_distance := 0 |}.

Definition new_plugin `{L : MavlinkLib} (tx0 : bool) (c0 : mavlink_channel)
  : plugin :=
  {| link := new_transport tx0; m_status := zero_status;
     m_buffer := zero_message; chan0 := c0; act := new_actuators;
     sens := new_sensors; last_time_ := 0; published := [] |}.

Definition set_imu_update_interval (v : Q) (s : sensors) : sensors :=
  {| last_imu_time_ := last_imu_time_ s; imu_update_interval_ := v;
     hil_mode_ := hil_mode_ s; hil_state_level_ := hil_state_level_ s;
     optflow_gyro := optflow_gyro s; last_dt_us := last_dt_us s;
     optflow_distance := optflow_distance s |}.

Definition set_last_imu_time (v : Z) (s : sensors) : sensors :=
  {| last_imu_time_ := v; imu_update_interval_ := imu_update_interval_ s;
     hil_mode_ := hil_mode_ s; hil_state_level_ := hil_state_level_ s;
     optflow_gyro := optflow_gyro s; last_dt_us := last_dt_us s;
     optflow_distance := optflow_distance s |}.

Definition set_hil_mode (v : bool) (s : sensors) : sensors :=
  {| last_imu_time_ := last_imu_time_ s;
     imu_update_interval_ := imu_update_interval_ s;
     hil_mode_ := v; hil_state_level_ := hil_state_level_ s;
     optflow_gyro := optflow_gyro s; last_dt_us := last_dt_us s;
     optflow_distance := optflow_distance s |}.

Definition set_hil_state_level (v : bool) (s : sensors) : sensors :=
  {| last_imu_time_ := last_imu_time_ s;
     imu_update_interval_ := imu_update_interval_ s;
     hil_mode_ := hil_mode_ s; hil_state_level_ := v;
     optflow_gyro := optflow_gyro s; last_dt_us := last_dt_us s;
     optflow_distance := optflow_distance s |}.

Definition INADDR_ANY : Z := 0.
Definition INADDR_NONE : Z := 4294967295.

(** What [Load] learns from its surroundings: the simulation time, and
    whether the serial device and the UDP socket could be opened. *)
Record load_env := {
  sim_time : Z;
  open_ok : bool;
  socket_ok : bool
}.

Section Configuration.
Context `{L : MavlinkLib}.

(** The SDF element of the plugin: its child elements by name, each with
    its text; [Get_bool] and [Get_int] are [Get<bool>()] and
    [Get<int>()] of sdformat, [inet_addr] is the C function. *)
Variable Get_bool : string → bool.
Variable Get_int : string → Z.
Variable inet_addr : string → Z.

Definition HasElement (sdf : gmap string string) (name : string) : bool :=
  bool_decide (is_Some (sdf !! name)).

(** [GetElement(name)]: no element comes back for a name the plugin
    element does not have, and [->Get<T>()] on it has no result. *)
Definition GetElement (sdf : gmap string string) (name : string)
  : option string := sdf !! name.

(** Lines 202-204; the quotient is the one of [int], and there is none
    for a rate of zero. *)
Definition Load_imu_rate (sdf : gmap string string) (s : sensors)
  : option sensors :=
  if HasElement sdf "imu_rate" then
    e ← GetElement sdf "imu_rate";
    let rate := Get_int e in
    if rate =? 0 then None
    else Some (set_imu_update_interval (inject_Z (Z.quot 1 rate)) s)
  else Some s.

(** Lines 217-225. *)
Definition Load_hil (sdf : gmap string string) (s : sensors)
  : option sensors :=
  s ← (if HasElement sdf "hil_state_level" then
         e ← GetElement sdf "hil_mode";
         Some (set_hil_mode (Get_bool e) s)
       else Some s);
  if HasElement sdf "hil_state_level" then
    e ← GetElement sdf "hil_state_level";
    Some (set_hil_state_level (Get_bool e) s)
  else Some s.

(** Lines 228-250: [serial_enabled_], and [open()] when it is set. *)
Definition Load_serial (env : load_env) (sdf : gmap string string)
    (t : transport) : option transport :=
  enabled ← (if HasElement sdf "serialEnabled" then
               e ← GetElement sdf "serialEnabled"; Some (Get_bool e)
             else Some (serial_enabled_ t));
  Some {| serial_enabled_ := enabled;
          dev_open := if enabled then open_ok env else dev_open t;
          tx_in_progress := tx_in_progress t; tx_q := tx_q t;
          _srcaddr := _srcaddr t; qgc_udp_port_ := qgc_udp_port_ t;
          inflight := inflight t; posted := posted t; writes := writes t;
          sent := sent t;
          log := if enabled && negb (open_ok env)
                 then log t ++ ["Error opening serial device"]
                 else log t |}.

(** An address option of lines 254-264 and 269-279: [inr] is the early
    [return] on an address [inet_addr] rejects. *)
Definition Load_addr (sdf : gmap string string) (name : string)
  : Z + unit :=
  match sdf !! name with
  | Some a =>
      if bool_decide (a = "INADDR_ANY") then inl INADDR_ANY
      else if inet_addr a =? INADDR_NONE then inr tt
      else inl (inet_addr a)
  | None => inl INADDR_ANY
  end.

Definition Load_port (sdf : gmap string string) (name : string) (d : Z) : Z :=
  match sdf !! name with
  | Some e => Get_int e
  | None => d
  end.

(** Lines 254-313: the UDP peer.  Every early [return] leaves the
    transport as it is at that point. *)
Definition Load_udp (env : load_env) (sdf : gmap string string)
    (t : transport) : transport :=
  match Load_addr sdf "mavlink_addr" with
  | inr _ => t
  | inl mavlink_addr_ =>
      let mavlink_udp_port_ :=
        Load_port sdf "mavlink_udp_port" kDefaultMavlinkUdpPort in
      match Load_addr sdf "qgc_addr" with
      | inr _ => t
      | inl qgc_addr_ =>
          let qgc_port := Load_port sdf "qgc_udp_port" (qgc_udp_port_ t) in
          let src :=
            if negb (socket_ok env) then _srcaddr t
            else if serial_enabled_ t then
              {| sin_addr := qgc_addr_; sin_port := htons qgc_port |}
            else
              {| sin_addr := mavlink_addr_;
                 sin_port := htons mavlink_udp_port_ |} in
          {| serial_enabled_ := serial_enabled_ t; dev_open := dev_open t;
             tx_in_progress := tx_in_progress t; tx_q := tx_q t;
             _srcaddr := src; qgc_udp_port_ := qgc_port;
             inflight := inflight t; posted := posted t;
             writes := writes t; sent := sent t; log := log t |}
      end
  end.

(** [Load], as far as it sets the fields above. *)
Definition Load (env : load_env) (sdf : gmap string string) (p : plugin)
  : option plugin :=
  let s := set_last_imu_time (sim_time env) (sens p) in
  s ← Load_imu_rate sdf s;
  s ← Load_hil sdf s;
  t ← Load_serial env sdf (link p);
  Some {| link := Load_udp env sdf t; m_status := m_status p;
          m_buffer := m_buffer p; chan0 := chan0 p; act := act p;
          sens := s; last_time_ := sim_time env;
          published := published p |}.

End Configuration.

(** ** A small instance of the library

    A one-byte-length, one-byte-checksum framing with the states and
    result codes of the library, to run the plugin on concrete bytes:
    a frame is [STX; n; p1 .. pn; c] with [c] the low byte of
    [X25_INIT_CRC + p1 + .. + pn]. *)
Module Mini.

Definition frame_char (rx : mavlink_message_t) (st : mavlink_status_t)
    (c : Z) (r : mavlink_message_t)
  : Framing * mavlink_message_t * mavlink_status_t * mavlink_message_t :=
  let st := set_msg_received incomplete st in
  match parse_state st with
  | MAVLINK_PARSE_STATE_UNINIT | MAVLINK_PARSE_STATE_IDLE =>
      if c =? MAVLINK_STX then
        (incomplete, mavlink_start_checksum (set_len 0 rx),
         set_parse_state MAVLINK_PARSE_STATE_GOT_STX st, r)
      else (incomplete, rx, st, r)
  | MAVLINK_PARSE_STATE_GOT_STX =>
      let rx :=
        {| checksum := checksum rx; magic := MAVLINK_STX; len := c;
           incompat_flags := 0; compat_flags := 0; seq := 0; sysid := 0;
           compid := 0; msgid := 0; payload64 := []; ck := [];
           signature := [] |} in
      (incomplete, rx,
       set_parse_state (if c =? 0 then MAVLINK_PARSE_STATE_GOT_PAYLOAD
                        else MAVLINK_PARSE_STATE_GOT_LENGTH) st, r)
  | MAVLINK_PARSE_STATE_GOT_LENGTH =>
      let rx :=
        {| checksum := (checksum rx + c) mod 65536; magic := magic rx;
           len := len rx; incompat_flags := 0; compat_flags := 0; seq := 0;
           sysid := 0; compid := 0;
           msgid := match payload64 rx with [] => c | _ => msgid rx end;
           payload64 := payload64 rx ++ [c]; ck := []; signature := [] |} in
      (incomplete, rx,
       set_parse_state
         (if Z.of_nat (length (payload64 rx)) =? len rx
          then MAVLINK_PARSE_STATE_GOT_PAYLOAD
          else MAVLINK_PARSE_STATE_GOT_LENGTH) st, r)
  | MAVLINK_PARSE_STATE_GOT_PAYLOAD =>
      let res := if c =? checksum rx mod 256 then ok else bad_crc in
      let rx :=
        {| checksum := checksum rx; magic := magic rx; len := len rx;
           incompat_flags := 0; compat_flags := 0; seq := 0; sysid := 0;
           compid := 0; msgid := msgid rx; payload64 := payload64 rx;
           ck := [c]; signature := [] |} in
      (res, rx,
       set_parse_state MAVLINK_PARSE_STATE_IDLE (set_msg_received res st),
       rx)
  | _ => (incomplete, rx, set_parse_state MAVLINK_PARSE_STATE_IDLE st, r)
  end.

Definition to_send_buffer (m : mavlink_message_t) : list Z :=
  [magic m; len m] ++ payload64 m ++ ck m.

(** The first payload byte is the message id, the next sixteen are the
    controls, the one after is the mode. *)
Definition hil_actuator_controls_decode (m : mavlink_message_t)
  : mavlink_hil_actuator_controls_t :=
  {| hac_time_usec := 0; hac_flags := 0;
     controls := map inject_Z (firstn 16 (skipn 1 (payload64 m)));
     mode := nth 17 (payload64 m) 0 |}.

Definition stamped (id t : Z) : mavlink_message_t :=
  let p := [id; t mod 256] in
  {| checksum := (X25_INIT_CRC + id + t mod 256) mod 65536;
     magic := MAVLINK_STX; len := 2; incompat_flags := 0;
     compat_flags := 0; seq := 0; sysid := 1; compid := 200; msgid := id;
     payload64 := p; ck := [(X25_INIT_CRC + id + t mod 256) mod 256];
     signature := [] |}.

Definition parse_char (ch : mavlink_message_t * mavlink_status_t) (c : Z)
  : option mavlink_message_t * (mavlink_message_t * mavlink_status_t) :=
  let '(res, rx, st, r) := frame_char (fst ch) (snd ch) c zero_message in
  (match res with ok => Some r | _ => None end, (rx, st)).

Definition lib : MavlinkLib := {|
  mavlink_msg_to_send_buffer := to_send_buffer;
  mavlink_msg_hil_actuator_controls_decode := hil_actuator_controls_decode;
  mavlink_msg_hil_sensor_encode_chan m := stamped 107 (hs_time_usec m);
  mavlink_msg_hil_state_quaternion_encode_chan m :=
    stamped 115 (hq_time_usec m);
  mavlink_msg_hil_optical_flow_encode_chan m := stamped 114 (of_time_usec m);
  mavlink_frame_char_buffer := frame_char;
  mavlink_channel := mavlink_message_t * mavlink_status_t;
  mavlink_parse_char := parse_char
|}.

(** A frame of the small framing with the given payload. *)
Definition frame (p : list Z) : list Z :=
  [MAVLINK_STX; Z.of_nat (length p)] ++ p
  ++ [fold_left (λ a c, (a + c) mod 65536) p X25_INIT_CRC mod 256].

Definition message (p : list Z) : mavlink_message_t :=
  {| checksum := fold_left (λ a c, (a + c) mod 65536) p X25_INIT_CRC;
     magic := MAVLINK_STX; len := Z.of_nat (length p);
     incompat_flags := 0; compat_flags := 0; seq := 0; sysid := 0;
     compid := 0; msgid := hd 0 p; payload64 := p;
     ck := [fold_left (λ a c, (a + c) mod 65536) p X25_INIT_CRC mod 256];
     signature := [] |}.

Definition plugin0 : plugin (L := lib) :=
  new_plugin (L := lib) false (zero_message, zero_status).

(** The plugin on an open serial link whose ground station is at port
    14550. *)
Definition serial_link : transport :=
  {| serial_enabled_ := true; dev_open := true; tx_in_progress := false;
     tx_q := []; _srcaddr := {| sin_addr := 2130706433; sin_port := 14550 |};
     qgc_udp_port_ := 14550; inflight := None;
     posted := []; writes := []; sent := []; log := [] |}.

Definition serial_plugin : plugin (L := lib) := set_link serial_link plugin0.

End Mini.

(** ** States, inputs and notions the properties are stated with *)

(** A queue at its capacity, on an open serial link. *)
Definition full_link : transport :=
  set_tx_q (repeat (MsgBuffer_of (L := Mini.lib) (Mini.message [7])) 1000)
    Mini.serial_link.

(** A serial link whose device could not be opened. *)
Definition closed_link : transport :=
  {| serial_enabled_ := true; dev_open := false; tx_in_progress := false;
     tx_q := []; _srcaddr := {| sin_addr := 2130706433; sin_port := 14550 |};
     qgc_udp_port_ := 14550; inflight := None;
     posted := []; writes := []; sent := []; log := [] |}.

(** Two frames queued, the first one being written. *)
Definition writing_link : transport :=
  do_write true
    (set_tx_q [MsgBuffer_of (L := Mini.lib) (Mini.message [7]);
               MsgBuffer_of (L := Mini.lib) (Mini.message [8; 9])]
       Mini.serial_link).

(** The serial side is blocked: a write is marked in progress, the
    device is working on none, and what is posted are the drains of
    [send_mavlink_message]. *)
Definition blocked (t : transport) : Prop :=
  tx_in_progress t = true ∧ inflight t = None
  ∧ Forall (λ k, k = Task_do_write true) (posted t).

(** The plugin after the bytes [STX; 1; 7] of a frame whose check byte
    is still to come. *)
Definition mid_frame : plugin (L := Mini.lib) * mavlink_message_t :=
  parse_buffer (L := Mini.lib) 5 [253; 1; 7] (Mini.serial_plugin, zero_message).

(** Channels with offset 0, scaling 1, armed zero 0 and disarmed
    zero 3. *)
Definition unit_actuators : actuators :=
  {| received_first_referenc_ := false;
     input_reference_ := repeat 0%Q n_out_max;
     input_index_ := repeat 0 n_out_max;
     input_offset_ := repeat 0%Q n_out_max;
     input_scaling_ := repeat 1%Q n_out_max;
     zero_position_disarmed_ := repeat (3 # 1) n_out_max;
     zero_position_armed_ := repeat 0%Q n_out_max;
     last_actuator_time_ := 0 |}.

(** An actuator-control frame of the small framing: control 0 is 100,
    the others are 0, and the mode is the safety-armed flag alone. *)
Definition armed_msg : mavlink_message_t :=
  Mini.message ([93; 100] ++ repeat 0 15 ++ [128]).

(** The plugin one second after it decoded [armed_msg]. *)
Definition armed_plugin : plugin (L := Mini.lib) :=
  set_act (handle_message (L := Mini.lib) 1000000000 armed_msg unit_actuators)
    Mini.plugin0.

(** An IMU sample at simulation time [t] (the three clock reads agree)
    with body rate [g]. *)
Definition imu_at (t : Z) (g : Vector3) : imu_sample :=
  {| current_time := t; stamp_sensor := t; stamp_state := t;
     accel_b := Vector3_zero; gyro_b := g; mag_b := Vector3_zero;
     omega_nb_b := g;
     baro_abs_pressure := 0; baro_diff_pressure := 0;
     baro_pressure_alt := 0; baro_temperature := 0;
     truth_lat := 0; truth_lon := 0; truth_alt := 0; truth_rest := [] |}.

(** A run of IMU callbacks with nothing else in between. *)
Definition imu_run (samples : list imu_sample) (s : sensors) : sensors :=
  fold_left (λ s i, fst (ImuCallback_frames i s)) samples s.

(** The accumulator is the rate times a time that has not gone down. *)
Definition accumulated (r : Vector3) (s : sensors) : Prop :=
  ∃ T : Q, (0 <= T)%Q
    ∧ (vx (optflow_gyro s) == vx r * T)%Q
    ∧ (vy (optflow_gyro s) == vy r * T)%Q
    ∧ (vz (optflow_gyro s) == vz r * T)%Q.

(** Half a radian per second about the body x axis. *)
Definition roll_rate : Vector3 := {| vx := 1 # 2; vy := 0; vz := 0 |}.

(** A flow sample at 5 ms. *)
Definition flow0 : flow_sample :=
  {| flow_now := 5000000; flow_sensor_id := 0;
     flow_integration_time_us := 0; flow_integrated_x := 0;
     flow_integrated_y := 0; flow_temperature := 0; flow_quality := 255;
     flow_time_delta_distance_us := 0 |}.

(** A configuration with a "hil_mode" element set and no
    "hil_state_level" element. *)
Definition hil_mode_only : gmap string string :=
  {[ "hil_mode" := "true" ]}.

(** A reading of [Get<bool>()] on the text of an element. *)
Definition is_true (s : string) : bool :=
  bool_decide (s = "true") || bool_decide (s = "1").

(** Time zero, with the serial device and the socket opening fine. *)
Definition env0 : load_env :=
  {| sim_time := 0; open_ok := true; socket_ok := true |}.

(** ** Bytes through the serial link *)

(** A pending frame as the constructor and the handler leave it: its
    length is the number of its bytes and the cursor is inside. *)
Definition wf_buffer (b : MsgBuffer) : Prop :=
  buf_len b = Z.of_nat (length (data b)) ∧ 0 <= pos b <= buf_len b.

(** What is still to be written, front of the queue first. *)
Definition pending (t : transport) : list Z :=
  concat (map dpos (tx_q t)).

(** The write in flight, if there is one, is the rest of the frame at the
    front of the queue. *)
Definition serial_inv (t : transport) : Prop :=
  Forall wf_buffer (tx_q t)
  ∧ ∀ w, inflight t = Some w → ∃ b rest, tx_q t = b :: rest ∧ w = dpos b.

(** The device reports at most as many bytes as it was given. *)
Definition device_ok (n : Z) (t : transport) : Prop :=
  ∀ w, inflight t = Some w → 0 <= n <= Z.of_nat (length w).

Section SerialRuns.
Context `{L : MavlinkLib}.

Fixpoint run_ok (es : list io_event) (t : transport) : Prop :=
  match es with
  | [] => True
  | e :: es =>
      match e with
      | Ev_write_done _ n => device_ok n t
      | _ => True
      end
      ∧ ∀ t', io_step e t = Some t' → run_ok es t'
  end.

(** [run_ok] as a test. *)
Fixpoint run_okb (es : list io_event) (t : transport) : bool :=
  match es with
  | [] => true
  | e :: es =>
      match e, inflight t with
      | Ev_write_done _ n, Some w =>
          (0 <=? n) && (n <=? Z.of_nat (length w))
      | _, _ => true
      end
      && match io_step e t with
         | Some t' => run_okb es t'
         | None => true
         end
  end.

(** The bytes the device took: the first [n] of the write in flight, at
    every completion without error. *)
Definition step_transferred (e : io_event) (t : transport) : list Z :=
  match e with
  | Ev_write_done false n =>
      match inflight t with
      | Some w => firstn (Z.to_nat n) w
      | None => []
      end
  | _ => []
  end.

(** The bytes handed to the serial queue: the wire form of every frame
    sent with port zero while serial transport is on and the device is
    open. *)
Definition step_accepted (e : io_event) (t : transport) : list Z :=
  match e with
  | Ev_send m port =>
      if serial_enabled_ t && (port =? 0) && dev_open t
      then mavlink_msg_to_send_buffer m else []
  | _ => []
  end.

Fixpoint transferred (es : list io_event) (t : transport) : list Z :=
  match es with
  | [] => []
  | e :: es =>
      step_transferred e t
      ++ match io_step e t with
         | Some t' => transferred es t'
         | None => []
         end
  end.

Fixpoint accepted (es : list io_event) (t : transport) : list Z :=
  match es with
  | [] => []
  | e :: es =>
      step_accepted e t
      ++ match io_step e t with
         | Some t' => accepted es t'
         | None => []
         end
  end.

(** A device that writes all it is given, for at most [fuel] writes. *)
Fixpoint drain (fuel : nat) (t : transport) : option transport :=
  match fuel with
  | O => Some t
  | S fuel =>
      match inflight t with
      | None => Some t
      | Some w =>
          t' ← io_step (Ev_write_done false (Z.of_nat (length w))) t;
          drain fuel t'
      end
  end.

(** [send_mavlink_message(&msg)] for each message in turn. *)
Definition send_many (ms : list mavlink_message_t) (t : transport)
  : transport :=
  fold_left (λ t m, send_mavlink_message m 0 t) ms t.

(** ** What the two receive paths hand on *)

(** The framer with the resynchronisation of [parse_buffer], on its
    own: the state after the byte and the message when there is one to
    dispatch. *)
Definition frame_byte (c : Z)
    (rx : mavlink_status_t * mavlink_message_t * mavlink_message_t)
  : mavlink_status_t * mavlink_message_t * mavlink_message_t
    * option mavlink_message_t :=
  let '(status, buffer, message) := rx in
  let '(msg_received, buffer, status, message) :=
    mavlink_frame_char_buffer buffer status c message in
  let '(status, buffer) :=
    if Framing_eqb msg_received bad_crc
       || Framing_eqb msg_received bad_signature then
      let status := _mav_parse_error status in
      let status := set_msg_received incomplete status in
      let status := set_parse_state MAVLINK_PARSE_STATE_IDLE status in
      if c =? MAVLINK_STX then
        (set_parse_state MAVLINK_PARSE_STATE_GOT_STX status,
         mavlink_start_checksum (set_len 0 buffer))
      else (status, buffer)
    else (status, buffer) in
  (status, buffer, message,
   if negb (Framing_eqb msg_received incomplete) then Some message else None).

(** The messages [parse_buffer] dispatches on the bytes, in order. *)
Fixpoint frames_of (bytes : list Z)
    (rx : mavlink_status_t * mavlink_message_t * mavlink_message_t)
  : list mavlink_message_t :=
  match bytes with
  | [] => []
  | c :: bytes =>
      let '(status, buffer, message, out) := frame_byte c rx in
      match out with
      | Some m => m :: frames_of bytes (status, buffer, message)
      | None => frames_of bytes (status, buffer, message)
      end
  end.

(** The messages [mavlink_parse_char] completes on the bytes of a
    datagram, in order. *)
Fixpoint parsed_of (bytes : list Z) (ch : mavlink_channel)
  : list mavlink_message_t :=
  match bytes with
  | [] => []
  | c :: bytes =>
      match mavlink_parse_char ch c with
      | (Some m, ch) => m :: parsed_of bytes ch
      | (None, ch) => parsed_of bytes ch
      end
  end.

(** [handle_message] on each message in turn. *)
Definition handle_all (now : Z) (ms : list mavlink_message_t)
    (a : actuators) : actuators :=
  fold_left (λ a m, handle_message now m a) ms a.

End SerialRuns.

(** ** The lidar callback *)

(** [mavlink_distance_sensor_t]. *)
Record mavlink_distance_sensor_t := {
  time_boot_ms : Z;
  min_distance : Z;
  max_distance : Z;
  current_distance : Z;
  ds_type : Z;
  ds_id : Z;
  ds_orientation : Z;
  ds_covariance : Z
}.

Record lidar_sample := {
  lidar_time_msec : Z;
  lidar_min_distance : Q;
  lidar_max_distance : Q;
  lidar_current_distance : Q
}.

(** A [double] stored in an unsigned integer field: the fraction is cut
    off (a value the field cannot hold has no defined result). *)
Definition trunc (q : Q) : Z := Z.quot (Qnum q) (Zpos (Qden q)).

Definition set_optflow_distance (d : Q) (s : sensors) : sensors :=
  {| last_imu_time_ := last_imu_time_ s;
     imu_update_interval_ := imu_update_interval_ s;
     hil_mode_ := hil_mode_ s; hil_state_level_ := hil_state_level_ s;
     optflow_gyro := optflow_gyro s; last_dt_us := last_dt_us s;
     optflow_distance := d |}.

(** [LidarCallback]: the frame it sends and the distance it keeps for
    the optical-flow frame. *)
Definition LidarCallback_frames (l : lidar_sample) (s : sensors)
  : sensors * mavlink_distance_sensor_t :=
  (set_optflow_distance (lidar_current_distance l) s,
   {| time_boot_ms := lidar_time_msec l;
      min_distance := trunc (lidar_min_distance l * 100);
      max_distance := trunc (lidar_max_distance l * 100);
      current_distance := trunc (lidar_current_distance l * 100);
      ds_type := 0; ds_id := 0; ds_orientation := 25;
      ds_covariance := 0 |}).

(** ** The control channels of [Load] *)

(** The per-channel tables [Load] fills from the <channel> elements:
    the four numeric arrays of the actuator record and the control
    types.  Joints, PID gains and topics belong to the simulator. *)
Record channel_tables := {
  tables : actuators;
  joint_control_type_ : list string
}.

Section Channels.
Variable Get_int : string → Z.
Variable Get_double : string → Q.

(** [channel->Get<double>(key)]: the value of the child element, and
    the default-constructed [0.0] when there is no such child. *)
Definition Get_double_key (ch : gmap string string) (key : string) : Q :=
  match ch !! key with
  | Some e => Get_double e
  | None => 0%Q
  end.

(** The assignments for one channel with index [i]; [None] is a write
    past the end of an array. *)
Definition Load_channel_at (i : nat) (ch : gmap string string)
    (tb : channel_tables) : option channel_tables :=
  let a := tables tb in
  if bool_decide (i < length (input_offset_ a)
                  ∧ i < length (input_scaling_ a)
                  ∧ i < length (zero_position_disarmed_ a)
                  ∧ i < length (zero_position_armed_ a)
                  ∧ i < length (joint_control_type_ tb))%nat
  then
    Some {| tables :=
              {| received_first_referenc_ := received_first_referenc_ a;
                 input_reference_ := input_reference_ a;
                 input_index_ := input_index_ a;
                 input_offset_ :=
                   <[i := Get_double_key ch "input_offset"]> (input_offset_ a);
                 input_scaling_ :=
                   <[i := Get_double_key ch "input_scaling"]>
                     (input_scaling_ a);
                 zero_position_disarmed_ :=
                   <[i := Get_double_key ch "zero_position_disarmed"]>
                     (zero_position_disarmed_ a);
                 zero_position_armed_ :=
                   <[i := Get_double_key ch "zero_position_armed"]>
                     (zero_position_armed_ a);
                 last_actuator_time_ := last_actuator_time_ a |};
            joint_control_type_ :=
              <[i := match ch !! "joint_control_type" with
                     | Some e => e
                     | None => "velocity"
                     end]> (joint_control_type_ tb) |}
  else None.

(** The loop over the <channel> elements (lines 77-176).  [index] is an
    [int] and [n_out_max] is [unsigned]: the comparison is made on the
    32-bit unsigned value of the index.  A channel without
    "input_index" ends the loop. *)
Fixpoint Load_channels (chs : list (gmap string string))
    (tb : channel_tables) : option channel_tables :=
  match chs with
  | [] => Some tb
  | ch :: chs =>
      match ch !! "input_index" with
      | None => Some tb
      | Some e =>
          let index := Get_int e in
          if uint32 index <? Z.of_nat n_out_max then
            tb ← Load_channel_at (Z.to_nat index) ch tb;
            Load_channels chs tb
          else Load_channels chs tb
      end
  end.

End Channels.

(** The tables as the constructor and the start of [Load] leave them. *)
Definition new_tables : channel_tables :=
  {| tables := new_actuators;
     joint_control_type_ := repeat ""%string n_out_max |}.

(** Two frames sent, the drain, and a device that takes the first frame
    in two halves. *)
Definition two_frames_run : list io_event :=
  [Ev_send (Mini.message [7]) 0; Ev_send (Mini.message [8; 9]) 0;
   Ev_run_posted; Ev_write_done false 2; Ev_write_done false 2;
   Ev_write_done false 5].

(** The bytes of a frame with a wrong check byte that is the start
    marker of the frame [STX; 0; 255]. *)
Definition corrupted_then_valid : list Z := [253; 1; 7; 253; 0; 255].

(** A serial plugin whose ground-station port is zero. *)
Definition echo_plugin : plugin (L := Mini.lib) :=
  set_link
    {| serial_enabled_ := true; dev_open := true; tx_in_progress := false;
       tx_q := []; _srcaddr := {| sin_addr := 2130706433; sin_port := 14550 |};
       qgc_udp_port_ := 0; inflight := None;
       posted := []; writes := []; sent := []; log := [] |}
    Mini.plugin0.

(** A ground station at 127.0.0.1, port 50000. *)
Definition gcs : sockaddr_in := {| sin_addr := 2130706433; sin_port := 50000 |}.

(** A configuration that turns serial transport on. *)
Definition serial_on : gmap string string := {[ "serialEnabled" := "true" ]}.

(** All the per-channel arrays have [n_out_max] entries. *)
Definition tables_ok (tb : channel_tables) : Prop :=
  length (input_offset_ (tables tb)) = n_out_max
  ∧ length (input_scaling_ (tables tb)) = n_out_max
  ∧ length (zero_position_disarmed_ (tables tb)) = n_out_max
  ∧ length (zero_position_armed_ (tables tb)) = n_out_max
  ∧ length (joint_control_type_ tb) = n_out_max.

(** The value is one an [int] holds. *)
Definition is_int (z : Z) : Prop := -2147483648 <= z < 2147483648.

(** A lidar sample of 2.5 m. *)
Definition lidar0 : lidar_sample :=
  {| lidar_time_msec := 7; lidar_min_distance := 1 # 10;
     lidar_max_distance := 30; lidar_current_distance := 5 # 2 |}.



(** Channel elements: index 3 with offset 1 and scaling 2, index -1, one
    without "input_index", and index 5. *)
Definition channel3 : gmap string string :=
  {[ "input_index" := "3"; "input_offset" := "1"; "input_scaling" := "2" ]}.

Definition channel_neg : gmap string string :=
  {[ "input_index" := "-1"; "input_offset" := "1" ]}.

Definition channel_anon : gmap string string :=
  {[ "input_offset" := "1" ]}.

Definition channel5 : gmap string string :=
  {[ "input_index" := "5"; "input_scaling" := "2" ]}.

(** A reading of [Get<int>()] and [Get<double>()] on the texts used
    above. *)
Definition int_of (s : string) : Z :=
  if bool_decide (s = "1") then 1
  else if bool_decide (s = "2") then 2
  else if bool_decide (s = "3") then 3
  else if bool_decide (s = "5") then 5
  else if bool_decide (s = "-1") then -1
  else if bool_decide (s = "250") then 250
  else 0.

Definition double_of (s : string) : Q := inject_Z (int_of s).

(** A configuration asking for 250 IMU samples a second. *)
Definition imu_250 : gmap string string := {[ "imu_rate" := "250" ]}.

(** * Properties *)

(** ** Routing and the transmit queue *)

Section TransportFacts.
Context `{L : MavlinkLib}.

Lemma send_serial_open (m : mavlink_message_t) (t : transport) :
  serial_enabled_ t = true → dev_open t = true →
  send_mavlink_message m 0 t
  = post (Task_do_write true) (set_tx_q (tx_q t ++ [MsgBuffer_of m]) t).
Proof.
  intros Hs Ho. unfold send_mavlink_message.
  rewrite Hs, Ho. simpl.
  destruct (MAX_TXQ_SIZE <=? Z.of_nat (length (tx_q t))); reflexivity.
Qed.

Lemma send_serial_closed (m : mavlink_message_t) (t : transport) :
  serial_enabled_ t = true → dev_open t = false →
  send_mavlink_message m 0 t = gzerr "Serial port closed!" t.
Proof.
  intros Hs Ho. unfold send_mavlink_message. rewrite Hs, Ho. reflexivity.
Qed.

Lemma send_udp (m : mavlink_message_t) (port : Z) (t : transport) :
  serial_enabled_ t && (port =? 0) = false →
  send_mavlink_message m port t
  = sendto (mavlink_msg_to_send_buffer m) (_srcaddr t) t.
Proof.
  intros Hc. unfold send_mavlink_message. rewrite Hc. reflexivity.
Qed.

(** C1 (what the code does at a full queue): a frame sent over an open
    serial link while the queue already holds [MAX_TXQ_SIZE] frames or
    more is appended to the queue like any other; nothing is dropped. *)
Theorem send_at_capacity_still_enqueues (m : mavlink_message_t)
    (t : transport) :
  serial_enabled_ t = true → dev_open t = true →
  MAX_TXQ_SIZE <= Z.of_nat (length (tx_q t)) →
  tx_q (send_mavlink_message m 0 t) = tx_q t ++ [MsgBuffer_of m].
Proof.
  intros Hs Ho _. rewrite send_serial_open by assumption. reflexivity.
Qed.

(** C7 (amended): with serial transport enabled and a zero port
    argument the frame is appended to the serial transmit queue and a
    drain is posted when the device is open, and the frame is dropped
    with an error line when it is closed; in every other case the
    encoded frame is handed to exactly one [sendto], whose destination
    is [_srcaddr] when the port argument is zero. *)
Theorem send_mavlink_message_routing (m : mavlink_message_t) (port : Z)
    (t : transport) :
  let t' := send_mavlink_message m port t in
  (serial_enabled_ t = true ∧ port = 0 ∧ dev_open t = true →
     tx_q t' = tx_q t ++ [MsgBuffer_of m] ∧ sent t' = sent t
     ∧ posted t' = posted t ++ [Task_do_write true])
  ∧ (serial_enabled_ t = true ∧ port = 0 ∧ dev_open t = false →
     tx_q t' = tx_q t ∧ sent t' = sent t ∧ posted t' = posted t
     ∧ log t' = log t ++ ["Serial port closed!"])
  ∧ (serial_enabled_ t = false ∨ port ≠ 0 →
     tx_q t' = tx_q t ∧ posted t' = posted t
     ∧ ∃ dest, sent t' = sent t ++ [(dest, mavlink_msg_to_send_buffer m)]
               ∧ (port = 0 → dest = _srcaddr t)).
Proof.
  intros t'. subst t'. split; [| split].
  - intros (Hs & -> & Ho). rewrite send_serial_open by assumption.
    repeat split.
  - intros (Hs & -> & Ho). rewrite send_serial_closed by assumption.
    repeat split.
  - intros Hc.
    assert (Hudp : serial_enabled_ t && (port =? 0) = false).
    { destruct Hc as [-> | Hp]; [reflexivity |].
      apply andb_false_iff. right. apply Z.eqb_neq. exact Hp. }
    rewrite send_udp by assumption. repeat split.
    exists (_srcaddr t). split; [reflexivity | intros _; reflexivity].
Qed.

(** The destination of the datagram is [_srcaddr] whatever the port
    argument is: [dest_addr] is filled in and not used. *)
Lemma send_udp_destination (m : mavlink_message_t) (port : Z)
    (t : transport) :
  serial_enabled_ t = false →
  sent (send_mavlink_message m port t)
  = sent t ++ [(_srcaddr t, mavlink_msg_to_send_buffer m)].
Proof.
  intros Hs. rewrite send_udp; [reflexivity |]. rewrite Hs. reflexivity.
Qed.

(** C4: when a write completes without error having written [n] bytes,
    the cursor of the head frame is advanced by [n]; the head is popped
    when the cursor then equals the length of the frame; and if the queue
    is not empty afterwards the write of its head is started by the same
    call (it is the write in flight when the handler returns), while an
    empty queue clears [tx_in_progress]. *)
Theorem write_completion_advances_head (t : transport) (b : MsgBuffer)
    (rest : list MsgBuffer) (n : Z) :
  tx_q t = b :: rest → n <= buf_len b →
  ∃ t', do_write_handler false n t = Some t'
    ∧ tx_q t'
      = (if pos b + n =? buf_len b then rest
         else {| data := data b; buf_len := buf_len b; pos := pos b + n |}
              :: rest)
    ∧ match tx_q t' with
      | [] => tx_in_progress t' = false ∧ writes t' = writes t
              ∧ inflight t' = None
      | h :: _ => tx_in_progress t' = true ∧ writes t' = writes t ++ [dpos h]
                  ∧ inflight t' = Some (dpos h)
      end.
Proof.
  intros Hq Hn. unfold do_write_handler. simpl. rewrite Hq.
  destruct (Z.leb_spec n (buf_len b)) as [_ | Hlt]; [| lia]. simpl.
  unfold nbytes, advance. simpl.
  replace (buf_len b - (pos b + n) =? 0) with (pos b + n =? buf_len b)
    by (destruct (Z.eqb_spec (pos b + n) (buf_len b));
        destruct (Z.eqb_spec (buf_len b - (pos b + n)) 0); lia || reflexivity).
  destruct (pos b + n =? buf_len b).
  - destruct rest as [| h rest']; simpl.
    + eexists. split; [reflexivity |]. simpl. auto.
    + eexists. split; [reflexivity |]. simpl. auto.
  - simpl. eexists. split; [reflexivity |]. simpl. auto.
Qed.

Lemma io_step_blocked (e : io_event) (t : transport) :
  blocked t →
  ∃ t', io_step e t = Some t' ∧ blocked t' ∧ writes t' = writes t
        ∧ ∃ more, tx_q t' = tx_q t ++ more.
Proof.
  intros (Hp & Hi & Hk). destruct e as [m port | | err n]; simpl.
  - eexists. split; [reflexivity |]. unfold send_mavlink_message.
    destruct (serial_enabled_ t && (port =? 0)).
    + destruct (negb (dev_open t)).
      * repeat split; simpl; auto. exists []. symmetry. apply app_nil_r.
      * destruct (MAX_TXQ_SIZE <=? Z.of_nat (length (tx_q t)));
          (repeat split; simpl; auto;
           [apply Forall_app; split; [assumption | repeat constructor]
           | eexists; reflexivity]).
    + repeat split; simpl; auto. exists []. symmetry. apply app_nil_r.
  - destruct (posted t) as [| k rest] eqn:Hposted.
    + eexists. split; [reflexivity |]. repeat split; auto.
      * rewrite Hposted. constructor.
      * exists []. symmetry. apply app_nil_r.
    + inversion Hk as [| ? ? Hhd Htl]; subst k.
      eexists. split; [reflexivity |]. unfold do_write. simpl.
      rewrite Hp. simpl. repeat split; simpl; auto.
      exists []. symmetry. apply app_nil_r.
  - rewrite Hi. eexists. split; [reflexivity |]. repeat split; auto.
    exists []. symmetry. apply app_nil_r.
Qed.

Lemma io_run_blocked (es : list io_event) (t : transport) :
  blocked t →
  ∃ t', io_run es t = Some t' ∧ blocked t' ∧ writes t' = writes t
        ∧ ∃ more, tx_q t' = tx_q t ++ more.
Proof.
  revert t. induction es as [| e es IH]; intros t Hb; simpl.
  - exists t. repeat split; try apply Hb. exists []. symmetry. apply app_nil_r.
  - destruct (io_step_blocked e t Hb) as (t1 & -> & Hb1 & Hw1 & more1 & Hq1).
    simpl. destruct (IH t1 Hb1) as (t2 & Hrun & Hb2 & Hw2 & more2 & Hq2).
    exists t2. repeat split; try apply Hb2; [assumption | congruence |].
    exists (more1 ++ more2). rewrite Hq2, Hq1. symmetry. apply app_assoc.
Qed.

(** C2 (what the code does on a write error): the handler returns with
    the queue as it was and [tx_in_progress] still set; from then on,
    whatever is sent and however often the drain runs, no write is ever
    started again and the frame that failed stays at the head of the
    queue with its cursor where it was. *)
Theorem write_error_blocks_queue (t : transport) (b : MsgBuffer)
    (rest : list MsgBuffer) (w : list Z) (n : Z) (es : list io_event) :
  tx_q t = b :: rest → inflight t = Some w → tx_in_progress t = true →
  Forall (λ k, k = Task_do_write true) (posted t) →
  n <= buf_len b →
  ∃ t1 t2 more,
    io_step (Ev_write_done true n) t = Some t1
    ∧ tx_q t1 = b :: rest ∧ tx_in_progress t1 = true
    ∧ io_run es t1 = Some t2
    ∧ writes t2 = writes t ∧ tx_q t2 = b :: rest ++ more.
Proof.
  intros Hq Hi Hp Hk Hn. simpl. rewrite Hi. unfold do_write_handler.
  simpl. rewrite Hq.
  destruct (Z.leb_spec n (buf_len b)) as [_ | Hlt]; [| lia]. simpl.
  set (t1 := gzerr "Serial error" (set_inflight None t)).
  assert (Hb : blocked t1) by (repeat split; simpl; assumption).
  destruct (io_run_blocked es t1 Hb) as (t2 & Hrun & _ & Hw & more & Hq2).
  exists t1, t2, more. repeat split; try assumption.
  rewrite Hq2. simpl. rewrite Hq. reflexivity.
Qed.

End TransportFacts.

Lemma send_at_capacity_still_enqueues_witness :
  length (tx_q (send_mavlink_message (L := Mini.lib) (Mini.message [9]) 0
                  full_link)) = 1001%nat.
Proof.
  rewrite (send_at_capacity_still_enqueues (L := Mini.lib)
             (Mini.message [9]) full_link);
    [| reflexivity | reflexivity | vm_compute; discriminate].
  vm_compute. reflexivity.
Defined.

(** With 1001 frames sent before the drain starts and a device that
    writes every frame whole, all 1001 frames reach the device. *)
Example overflow_all_frames_written :
  writes <$> io_run (L := Mini.lib)
               (repeat (Ev_send (Mini.message [7]) 0) 1001
                ++ [Ev_run_posted] ++ repeat (Ev_write_done false 4) 1001)
               Mini.serial_link
  = Some (repeat (Mini.frame [7]) 1001).
Proof. vm_compute. reflexivity. Qed.

Lemma write_error_blocks_queue_witness :
  ∃ t1 t2 more,
    io_step (L := Mini.lib) (Ev_write_done true 0) writing_link = Some t1
    ∧ tx_q t1 = tx_q writing_link ∧ tx_in_progress t1 = true
    ∧ io_run (L := Mini.lib)
        [Ev_send (Mini.message [5]) 0; Ev_run_posted; Ev_run_posted] t1
      = Some t2
    ∧ writes t2 = [Mini.frame [7]]
    ∧ tx_q t2 = tx_q writing_link ++ more.
Proof.
  apply (write_error_blocks_queue (L := Mini.lib) writing_link
           (MsgBuffer_of (L := Mini.lib) (Mini.message [7]))
           [MsgBuffer_of (L := Mini.lib) (Mini.message [8; 9])]
           (Mini.frame [7]) 0
           [Ev_send (Mini.message [5]) 0; Ev_run_posted; Ev_run_posted]).
  - reflexivity.
  - reflexivity.
  - reflexivity.
  - constructor.
  - vm_compute. discriminate.
Defined.

Lemma write_completion_advances_head_witness :
  ∃ t', do_write_handler false 4 writing_link = Some t'
    ∧ tx_q t' = [MsgBuffer_of (L := Mini.lib) (Mini.message [8; 9])]
    ∧ tx_in_progress t' = true
    ∧ writes t' = [Mini.frame [7]; Mini.frame [8; 9]]
    ∧ inflight t' = Some (Mini.frame [8; 9]).
Proof.
  destruct (write_completion_advances_head writing_link
              (MsgBuffer_of (L := Mini.lib) (Mini.message [7]))
              [MsgBuffer_of (L := Mini.lib) (Mini.message [8; 9])] 4
              eq_refl ltac:(vm_compute; discriminate))
    as (t' & Hrun & Hq & Hrest).
  exists t'. split; [exact Hrun |].
  change (tx_q t' = [MsgBuffer_of (L := Mini.lib) (Mini.message [8; 9])]) in Hq.
  rewrite Hq in Hrest. split; [exact Hq |]. exact Hrest.
Defined.

(** C7 (as stated, refuted): serial transport is enabled and the port
    argument is zero, yet the frame is not on the transmit queue; the
    device is closed and the frame is dropped. *)
Lemma route_serial_closed_not_queued :
  serial_enabled_ closed_link = true
  ∧ tx_q (send_mavlink_message (L := Mini.lib) (Mini.message [7]) 0
            closed_link) = []
  ∧ sent (send_mavlink_message (L := Mini.lib) (Mini.message [7]) 0
            closed_link) = []
  ∧ log (send_mavlink_message (L := Mini.lib) (Mini.message [7]) 0
           closed_link) = ["Serial port closed!"].
Proof. repeat split. Qed.

(** A frame for port 14550 sent over UDP goes to the port of
    [_srcaddr], here 14560. *)
Example send_udp_ignores_port :
  sent (send_mavlink_message (L := Mini.lib) (Mini.message [7]) 14550
          (set_srcaddr {| sin_addr := 2130706433; sin_port := 14560 |}
             Mini.serial_link))
  = [({| sin_addr := 2130706433; sin_port := 14560 |}, Mini.frame [7])].
Proof. reflexivity. Qed.

(** ** The serial decoder *)

Section DecoderFacts.
Context `{L : MavlinkLib}.

(** C3 (what the code does with a frame that fails its check): when the
    framer reports a bad CRC or a bad signature on the byte [c], the
    parser goes back to idle, or to got-start with an empty buffer and a
    fresh checksum when [c] is the start marker, and the error is
    counted; and the message the framer left is forwarded to the ground
    station and passed to [handle_message] like a good one. *)
Theorem parse_byte_bad_frame_dispatched (now c : Z) (p : plugin)
    (message : mavlink_message_t) (res : Framing)
    (buffer : mavlink_message_t) (status : mavlink_status_t)
    (message' : mavlink_message_t) :
  mavlink_frame_char_buffer (m_buffer p) (m_status p) c message
  = (res, buffer, status, message') →
  res = bad_crc ∨ res = bad_signature →
  let p' := fst (parse_byte now c (p, message)) in
  parse_state (m_status p')
  = (if c =? MAVLINK_STX then MAVLINK_PARSE_STATE_GOT_STX
     else MAVLINK_PARSE_STATE_IDLE)
  ∧ m_buffer p'
    = (if c =? MAVLINK_STX
       then mavlink_start_checksum (set_len 0 buffer) else buffer)
  ∧ parse_error (m_status p') = parse_error status + 1
  ∧ link p'
    = send_mavlink_message message' (qgc_udp_port_ (link p)) (link p)
  ∧ act p' = handle_message now message' (act p).
Proof.
  intros Hf Hres. unfold parse_byte. rewrite Hf.
  destruct Hres as [-> | ->]; simpl; destruct (c =? MAVLINK_STX);
    repeat split.
Qed.

(** On a good frame and on an unfinished one the parser state is the
    framer's. *)
Lemma parse_byte_ok (now c : Z) (p : plugin) (message : mavlink_message_t)
    (buffer : mavlink_message_t) (status : mavlink_status_t)
    (message' : mavlink_message_t) :
  mavlink_frame_char_buffer (m_buffer p) (m_status p) c message
  = (ok, buffer, status, message') →
  let p' := fst (parse_byte now c (p, message)) in
  m_status p' = status ∧ m_buffer p' = buffer
  ∧ link p'
    = send_mavlink_message message' (qgc_udp_port_ (link p)) (link p)
  ∧ act p' = handle_message now message' (act p).
Proof. intros Hf. unfold parse_byte. rewrite Hf. repeat split. Qed.

Lemma parse_byte_incomplete (now c : Z) (p : plugin)
    (message : mavlink_message_t) (buffer : mavlink_message_t)
    (status : mavlink_status_t) (message' : mavlink_message_t) :
  mavlink_frame_char_buffer (m_buffer p) (m_status p) c message
  = (incomplete, buffer, status, message') →
  parse_byte now c (p, message) = (set_rx status buffer p, message').
Proof. intros Hf. unfold parse_byte. rewrite Hf. reflexivity. Qed.

End DecoderFacts.

Lemma parse_byte_bad_frame_dispatched_witness :
  sent (link (fst (parse_byte (L := Mini.lib) 5 253 mid_frame)))
  = [({| sin_addr := 2130706433; sin_port := 14550 |}, [253; 1; 7; 253])]
  ∧ parse_state (m_status (fst (parse_byte (L := Mini.lib) 5 253 mid_frame)))
    = MAVLINK_PARSE_STATE_GOT_STX.
Proof.
  destruct (parse_byte_bad_frame_dispatched (L := Mini.lib) 5 253
              (fst mid_frame) (snd mid_frame) bad_crc _ _ _ eq_refl
              (or_introl eq_refl))
    as (Hstate & _ & _ & Hlink & _).
  split.
  - change (fst (parse_byte (L := Mini.lib) 5 253 mid_frame))
      with (fst (parse_byte (L := Mini.lib) 5 253
                   (fst mid_frame, snd mid_frame))).
    rewrite Hlink. reflexivity.
  - exact Hstate.
Defined.

(** A frame with a wrong check byte that is the start marker of the
    well-formed frame [STX; 0; 255]: both are forwarded to the ground
    station, the corrupted one first. *)
Example corrupted_then_valid_both_forwarded :
  sent (link (fst (parse_buffer (L := Mini.lib) 5 [253; 1; 7; 253; 0; 255]
                     (Mini.serial_plugin, zero_message))))
  = [({| sin_addr := 2130706433; sin_port := 14550 |}, [253; 1; 7; 253]);
     ({| sin_addr := 2130706433; sin_port := 14550 |}, Mini.frame [])].
Proof. reflexivity. Qed.

(** ** Actuator decode and the motor command *)

Lemma nth_map_seq {A} (f : nat → A) (n i : nat) (d : A) :
  (i < n)%nat → nth i (map f (List.seq 0 n)) d = f i.
Proof.
  intros Hi.
  rewrite (nth_indep _ d (f 0%nat))
    by (rewrite length_map, length_seq; exact Hi).
  rewrite map_nth, seq_nth by exact Hi. reflexivity.
Qed.

(** The test of [handle_message] on the mode bitmask reads bit 7. *)
Lemma safety_armed_bit (m : Z) :
  (0 <? Z.land m MAV_MODE_FLAG_SAFETY_ARMED) = Z.testbit m 7.
Proof.
  assert (Hland : Z.land m (2 ^ 7) = if Z.testbit m 7 then 2 ^ 7 else 0).
  { apply Z.bits_inj'. intros n Hn.
    rewrite Z.land_spec, Z.pow2_bits_eqb by lia.
    destruct (Z.eqb_spec 7 n) as [<- | Hne].
    - destruct (Z.testbit m 7).
      + rewrite Z.pow2_bits_true by lia. reflexivity.
      + rewrite Z.bits_0. reflexivity.
    - rewrite andb_false_r. destruct (Z.testbit m 7).
      + rewrite Z.pow2_bits_false by lia. reflexivity.
      + rewrite Z.bits_0. reflexivity. }
  change MAV_MODE_FLAG_SAFETY_ARMED with (2 ^ 7). rewrite Hland.
  destruct (Z.testbit m 7); reflexivity.
Qed.

Section CodecFacts.
Context `{L : MavlinkLib}.

(** C5: decoding a HIL actuator-control frame sets all sixteen channels
    of the actuator reference: with the safety-armed flag (bit 7 of the
    mode) set, channel [i] is
    [(controls[i] + input_offset[i]) * input_scaling[i]
     + zero_position_armed[i]]; with the flag clear it is
    [zero_position_disarmed[i]], whatever the controls are. *)
Theorem handle_message_sets_reference (now : Z) (msg : mavlink_message_t)
    (a : actuators) (i : nat) :
  msgid msg = MAVLINK_MSG_ID_HIL_ACTUATOR_CONTROLS → (i < n_out_max)%nat →
  let c := mavlink_msg_hil_actuator_controls_decode msg in
  let a' := handle_message now msg a in
  length (input_reference_ a') = n_out_max
  ∧ nth i (input_reference_ a') 0%Q
    = if Z.testbit (mode c) 7
      then ((nth i (controls c) 0 + nth i (input_offset_ a) 0)
            * nth i (input_scaling_ a) 0
            + nth i (zero_position_armed_ a) 0)%Q
      else nth i (zero_position_disarmed_ a) 0%Q.
Proof.
  intros Hid Hi c a'. subst c a'. unfold handle_message.
  rewrite Hid, Z.eqb_refl. cbn [input_reference_]. split.
  - rewrite length_map, length_seq. reflexivity.
  - rewrite nth_map_seq by exact Hi. rewrite safety_armed_bit.
    rewrite nth_map_seq by exact Hi. rewrite Nat2Z.id. reflexivity.
Qed.

Lemma handle_message_other (now : Z) (msg : mavlink_message_t)
    (a : actuators) :
  msgid msg ≠ MAVLINK_MSG_ID_HIL_ACTUATOR_CONTROLS →
  handle_message now msg a = a.
Proof.
  intros Hid. unfold handle_message.
  destruct (Z.eqb_spec (msgid msg) MAVLINK_MSG_ID_HIL_ACTUATOR_CONTROLS);
    [contradiction | reflexivity].
Qed.

Lemma poll_byte_published (now : Z) (p : plugin) (c : Z) :
  published (poll_byte now p c) = published p.
Proof.
  unfold poll_byte. destruct (mavlink_parse_char (chan0 p) c) as [[msg |] ch].
  - simpl. destruct (serial_enabled_ (link p)); reflexivity.
  - reflexivity.
Qed.

Lemma poll_published (now : Z) (dgram : option (sockaddr_in * list Z))
    (p : plugin) :
  published (pollForMAVLinkMessages now dgram p) = published p.
Proof.
  destruct dgram as [[src bytes] |]; [| reflexivity]. simpl.
  transitivity (published (set_link (set_srcaddr src (link p)) p));
    [| reflexivity].
  generalize (set_link (set_srcaddr src (link p)) p). clear p.
  induction bytes as [| c bytes IH]; intros p; simpl; [reflexivity |].
  rewrite IH. apply poll_byte_published.
Qed.

Lemma map_const_repeat {A B} (b : B) (l : list A) :
  map (λ _, b) l = repeat b (length l).
Proof. induction l as [| x l IH]; simpl; [reflexivity | now rewrite IH]. Qed.

(** C10: on a tick on which a first actuator-control frame has been
    decoded and the last one is older than 0.2 s of simulation time (or
    its time stamp is zero), the motor-speed command that is published
    holds 0 for every channel of the actuator reference, whatever the
    reference holds.  The test is made after the poll of that tick. *)
Theorem OnUpdate_stale_publishes_zero (now : Z)
    (dgram : option (sockaddr_in * list Z)) (p : plugin) :
  let p1 := pollForMAVLinkMessages now dgram p in
  received_first_referenc_ (act p1) = true →
  (last_actuator_time_ (act p1) = 0
   ∨ (2 # 10 < Double (now - last_actuator_time_ (act p1)))%Q) →
  published (OnUpdate now dgram p)
  = published p ++ [repeat 0%Q (length (input_reference_ (act p1)))].
Proof.
  intros p1 Hfirst Hold. unfold OnUpdate. fold p1. cbn [published].
  rewrite Hfirst. unfold p1 at 1. rewrite poll_published.
  f_equal. f_equal. unfold turning_velocities.
  assert (Hstale : stale now (act p1) = true).
  { unfold stale. destruct Hold as [-> | Hlt]; [reflexivity |].
    apply orb_true_iff. right. apply negb_true_iff.
    destruct (Qle_bool _ _) eqn:Hle; [| reflexivity].
    apply Qle_bool_iff in Hle. exfalso. exact (Qlt_not_le _ _ Hlt Hle). }
  rewrite Hstale. apply map_const_repeat.
Qed.

(** While the last frame is at most 0.2 s old (and its stamp is not
    zero) the reference itself is published. *)
Lemma OnUpdate_fresh_publishes_reference (now : Z)
    (dgram : option (sockaddr_in * list Z)) (p : plugin) :
  let p1 := pollForMAVLinkMessages now dgram p in
  received_first_referenc_ (act p1) = true →
  last_actuator_time_ (act p1) ≠ 0 →
  (Double (now - last_actuator_time_ (act p1)) <= 2 # 10)%Q →
  published (OnUpdate now dgram p)
  = published p ++ [input_reference_ (act p1)].
Proof.
  intros p1 Hfirst Hnz Hle. unfold OnUpdate. fold p1. cbn [published].
  rewrite Hfirst. unfold p1 at 1. rewrite poll_published.
  f_equal. f_equal. unfold turning_velocities.
  assert (Hstale : stale now (act p1) = false).
  { unfold stale. apply orb_false_iff. split.
    - apply Z.eqb_neq. exact Hnz.
    - apply negb_false_iff. apply Qle_bool_iff. exact Hle. }
  rewrite Hstale. apply map_id.
Qed.

Lemma OnUpdate_before_first_reference (now : Z)
    (dgram : option (sockaddr_in * list Z)) (p : plugin) :
  received_first_referenc_ (act (pollForMAVLinkMessages now dgram p)) = false →
  published (OnUpdate now dgram p) = published p.
Proof.
  intros Hfirst. unfold OnUpdate. cbn [published]. rewrite Hfirst.
  apply poll_published.
Qed.

End CodecFacts.

Lemma handle_message_sets_reference_witness :
  nth 0 (input_reference_
           (handle_message (L := Mini.lib) 0 armed_msg unit_actuators)) 0%Q
  = 100%Q.
Proof.
  exact (proj2 (handle_message_sets_reference (L := Mini.lib) 0 armed_msg
                  unit_actuators 0 eq_refl ltac:(vm_compute; lia))).
Defined.

Lemma OnUpdate_stale_publishes_zero_witness :
  input_reference_ (act armed_plugin) = 100%Q :: repeat 0%Q 15
  ∧ published (OnUpdate (L := Mini.lib) 2000000000 None armed_plugin)
    = [repeat 0%Q 16].
Proof.
  split; [reflexivity |].
  exact (OnUpdate_stale_publishes_zero (L := Mini.lib) 2000000000 None
           armed_plugin eq_refl (or_intror eq_refl)).
Defined.

(** ** The sensor encoders *)

Lemma imu_gate_spec (s : sensors) (i : imu_sample) :
  imu_gate s i = true
  ↔ ¬ (imu_update_interval_ s == 0)%Q
    ∧ (imu_update_interval_ s
       <= Double (current_time i - last_imu_time_ s))%Q.
Proof.
  unfold imu_gate. rewrite andb_true_iff, negb_true_iff, Qle_bool_iff.
  split; intros [Hz Hle]; split; try assumption.
  - intros Heq. apply Qeq_bool_iff in Heq. congruence.
  - destruct (Qeq_bool _ _) eqn:Heq; [| reflexivity].
    apply Qeq_bool_iff in Heq. contradiction.
Qed.

Lemma in_hil_gate (hil level : bool) (o o' : hil_out) :
  In o' (hil_gate hil level o) ↔ o' = o ∧ (hil = true → level = true).
Proof.
  unfold hil_gate. destruct hil, level; simpl.
  - split; [intros [<- | []]; auto | intros [-> _]; auto].
  - split; [intros [] | intros [_ Hl]; discriminate (Hl eq_refl)].
  - split; [intros [<- | []]; split; [reflexivity | discriminate]
           | intros [-> _]; auto].
  - split; [intros [<- | []]; split; [reflexivity | discriminate]
           | intros [-> _]; auto].
Qed.

(** C6 (amended): the HIL sensor frame is sent by an IMU callback
    exactly when the update interval is not zero, the simulation time
    since [last_imu_time_] is at least the interval, and HIL mode is off
    or [hil_state_level_] is clear; with an interval of zero it is never
    sent.  The ground-truth state frame is not rate gated: it is sent by
    every IMU callback for which HIL mode is off or [hil_state_level_]
    is set. *)
Theorem imu_rate_gating (i : imu_sample) (s : sensors) :
  let out := snd (ImuCallback_frames i s) in
  let dt := Double (current_time i - last_imu_time_ s) in
  ((∃ m, In (Out_hil_sensor m) out)
   ↔ ¬ (imu_update_interval_ s == 0)%Q ∧ (imu_update_interval_ s <= dt)%Q
     ∧ (hil_mode_ s = true → hil_state_level_ s = false))
  ∧ ((imu_update_interval_ s == 0)%Q → ∀ m, ¬ In (Out_hil_sensor m) out)
  ∧ ((∃ m, In (Out_hil_state_quaternion m) out)
     ↔ (hil_mode_ s = true → hil_state_level_ s = true)).
Proof.
  intros out dt. subst out dt. unfold ImuCallback_frames.
  pose proof (imu_gate_spec s i) as Hgate.
  destruct (imu_gate s i).
  - assert (Hg : ¬ (imu_update_interval_ s == 0)%Q
                 ∧ (imu_update_interval_ s
                    <= Double (current_time i - last_imu_time_ s))%Q)
      by (apply Hgate; reflexivity).
    destruct (1000 <? gyro_dt_us s _); cbn [snd fst hil_mode_ hil_state_level_];
      (split; [| split]).
    all: try (intros Hz m _; apply (proj1 Hg); exact Hz).
    all: try (split;
      [ intros [m Hin]; apply in_app_iff in Hin; destruct Hin as [Hin | Hin];
        apply in_hil_gate in Hin; destruct Hin as [Heq Hl];
        [ repeat split; try apply Hg; intros Hm; specialize (Hl Hm);
          apply negb_true_iff in Hl; exact Hl
        | discriminate Heq ]
      | intros (_ & _ & Hl); eexists; apply in_app_iff; left;
        apply in_hil_gate; split; [reflexivity |];
        intros Hm; apply negb_true_iff; auto ]).
    all: split;
      [ intros [m Hin]; apply in_app_iff in Hin; destruct Hin as [Hin | Hin];
        apply in_hil_gate in Hin; destruct Hin as [Heq Hl];
        [ discriminate Heq | exact Hl ]
      | intros Hl; eexists; apply in_app_iff; right;
        apply in_hil_gate; split; [reflexivity | exact Hl] ].
  - cbn [snd fst app]. split; [| split].
    + split.
      * intros [m Hin]. apply in_hil_gate in Hin. destruct Hin as [Heq _].
        discriminate Heq.
      * intros (Hz & Hle & _).
        assert (false = true) by (apply Hgate; split; assumption).
        discriminate.
    + intros _ m Hin. apply in_hil_gate in Hin. destruct Hin as [Heq _].
      discriminate Heq.
    + split.
      * intros [m Hin]. apply in_hil_gate in Hin. apply Hin.
      * intros Hl. eexists. apply in_hil_gate. split; [reflexivity | exact Hl].
Qed.

(** The gate also keeps [last_imu_time_]. *)
Lemma imu_last_time (i : imu_sample) (s : sensors) :
  last_imu_time_ (fst (ImuCallback_frames i s))
  = if imu_gate s i then current_time i else last_imu_time_ s.
Proof.
  unfold ImuCallback_frames. destruct (imu_gate s i); [| reflexivity].
  destruct (1000 <? gyro_dt_us s _); reflexivity.
Qed.

(** C6 (as stated, refuted): with an interval of zero a tick sends the
    ground-truth frame and no sensor frame; and with the default
    interval of 4 ms a tick 1 ms after the last emission still sends the
    ground-truth frame. *)
Lemma imu_gating_counterexample :
  (∃ m, snd (ImuCallback_frames (imu_at 10000000 Vector3_zero)
               (set_imu_update_interval 0 new_sensors))
        = [Out_hil_state_quaternion m])
  ∧ imu_update_interval_ new_sensors = 4 # 1000
  ∧ (∃ m, snd (ImuCallback_frames (imu_at 1000000 Vector3_zero) new_sensors)
          = [Out_hil_state_quaternion m]).
Proof. repeat split; eexists; reflexivity. Qed.

Lemma flow_resets_gyro (f : flow_sample) (s : sensors) :
  optflow_gyro (fst (OpticalFlowCallback_frames f s)) = Vector3_zero.
Proof. reflexivity. Qed.

(** What one IMU callback does to the accumulator. *)
Lemma imu_gyro_step (i : imu_sample) (s : sensors) :
  let dt_us := gyro_dt_us s (time_usec_of (stamp_sensor i)) in
  optflow_gyro (fst (ImuCallback_frames i s))
  = if imu_gate s i && (1000 <? dt_us)
    then Vector3_add (optflow_gyro s)
           (Vector3_scale (gyro_b i) (inject_Z dt_us / 1000000))
    else optflow_gyro s.
Proof.
  unfold ImuCallback_frames. destruct (imu_gate s i); [| reflexivity].
  cbn [hs_time_usec]. destruct (1000 <? gyro_dt_us s _); reflexivity.
Qed.

(** The 32-bit difference is not more than the microseconds that went
    by since the stamp that was stored. *)
Lemma gyro_dt_us_elapsed (s : sensors) (prev time_usec : Z) :
  last_dt_us s = Some (uint32 prev) → prev <= time_usec →
  gyro_dt_us s time_usec <= time_usec - prev.
Proof.
  intros Hlast Hle. unfold gyro_dt_us, gyro_last. rewrite Hlast.
  unfold uint32. rewrite Zminus_mod_idemp_r. apply Z.mod_le; lia.
Qed.

Lemma scale_nonneg (dt_us : Z) :
  1000 < dt_us → (0 <= inject_Z dt_us / 1000000)%Q.
Proof. intros Hdt. unfold Qle. simpl. lia. Qed.

Lemma square_grows (x r T k : Q) :
  (0 <= T)%Q → (0 <= k)%Q → (x == r * T)%Q →
  (x * x <= (x + r * k) * (x + r * k))%Q.
Proof.
  intros HT Hk Hx.
  assert (Heq : ((x + r * k) * (x + r * k) - x * x
                 == (r * r) * (k * (2 * T + k)))%Q)
    by (rewrite Hx; ring).
  assert (Hpos : (0 <= (r * r) * (k * (2 * T + k)))%Q).
  { apply Qmult_le_0_compat.
    - destruct (Qlt_le_dec r 0) as [Hneg | Hnn].
      + assert (Hsq : (r * r == (- r) * (- r))%Q) by ring.
        rewrite Hsq. apply Qmult_le_0_compat; lra.
      + apply Qmult_le_0_compat; assumption.
    - apply Qmult_le_0_compat; lra. }
  lra.
Qed.

Lemma imu_step_accumulated (r : Vector3) (i : imu_sample) (s : sensors) :
  gyro_b i = r → accumulated r s →
  accumulated r (fst (ImuCallback_frames i s))
  ∧ (Vector3_norm2 (optflow_gyro s)
     <= Vector3_norm2 (optflow_gyro (fst (ImuCallback_frames i s))))%Q.
Proof.
  intros Hr (T & HT & Hx & Hy & Hz).
  pose proof (imu_gyro_step i s) as Hstep. cbv zeta in Hstep.
  destruct (imu_gate s i && (1000 <? gyro_dt_us s _)) eqn:Hacc.
  - apply andb_true_iff in Hacc. destruct Hacc as [_ Hdt].
    apply Z.ltb_lt in Hdt. apply scale_nonneg in Hdt.
    set (k := (inject_Z (gyro_dt_us s (time_usec_of (stamp_sensor i)))
               / 1000000)%Q) in *.
    rewrite Hr in Hstep. split.
    + exists (T + k)%Q. rewrite Hstep.
      unfold Vector3_add, Vector3_scale. cbn [vx vy vz].
      split; [lra |]. split; [rewrite Hx; ring |].
      split; [rewrite Hy; ring | rewrite Hz; ring].
    + rewrite Hstep.
      unfold Vector3_norm2, Vector3_add, Vector3_scale. cbn [vx vy vz].
      pose proof (square_grows _ _ _ _ HT Hdt Hx).
      pose proof (square_grows _ _ _ _ HT Hdt Hy).
      pose proof (square_grows _ _ _ _ HT Hdt Hz).
      lra.
  - rewrite Hstep. split; [| apply Qle_refl].
    exists T. rewrite Hstep. split; [assumption |]. split; [assumption |].
    split; assumption.
Qed.

Lemma imu_run_accumulated (r : Vector3) (samples : list imu_sample)
    (s : sensors) :
  Forall (λ j, gyro_b j = r) samples → accumulated r s →
  accumulated r (imu_run samples s).
Proof.
  intros Hall. revert s. induction Hall as [| i samples Hi _ IH]; intros s Hs.
  - exact Hs.
  - simpl. apply IH. apply (imu_step_accumulated r i s Hi Hs).
Qed.

(** C8: a flow sample leaves the gyro accumulator at zero; an IMU
    callback either leaves it as it is or, and then the microseconds
    [dt_us] counted since the last accumulation exceed 1000, adds the
    rate times [dt_us / 1e6] to it; and through any run of IMU callbacks
    with one constant rate after a flow sample, the (squared) magnitude
    of the accumulator does not go down from one callback to the
    next. *)
Theorem optflow_gyro_accumulation (r : Vector3) (f : flow_sample)
    (s0 : sensors) (samples : list imu_sample) (i : imu_sample) :
  Forall (λ j, gyro_b j = r) samples → gyro_b i = r →
  let s1 := fst (OpticalFlowCallback_frames f s0) in
  let s := imu_run samples s1 in
  let s' := fst (ImuCallback_frames i s) in
  let dt_us := gyro_dt_us s (time_usec_of (stamp_sensor i)) in
  optflow_gyro s1 = Vector3_zero
  ∧ (optflow_gyro s' = optflow_gyro s
     ∨ (1000 < dt_us
        ∧ optflow_gyro s'
          = Vector3_add (optflow_gyro s)
              (Vector3_scale r (inject_Z dt_us / 1000000))))
  ∧ (Vector3_norm2 (optflow_gyro s) <= Vector3_norm2 (optflow_gyro s'))%Q.
Proof.
  intros Hall Hi s1 s s' dt_us. split; [reflexivity |]. split.
  - subst s' dt_us. rewrite imu_gyro_step. cbv zeta.
    destruct (imu_gate s i && (1000 <? gyro_dt_us s _)) eqn:Hacc.
    + right. apply andb_true_iff in Hacc. destruct Hacc as [_ Hdt].
      apply Z.ltb_lt in Hdt. rewrite Hi. split; [exact Hdt | reflexivity].
    + left. reflexivity.
  - apply (imu_step_accumulated r i s Hi).
    apply imu_run_accumulated; [exact Hall |].
    exists 0%Q. unfold s1. cbn [fst OpticalFlowCallback_frames optflow_gyro
      Vector3_zero vx vy vz].
    split; [apply Qle_refl |]. split; [ring |]. split; ring.
Qed.

Lemma optflow_gyro_accumulation_witness :
  let s := imu_run [imu_at 10000000 roll_rate; imu_at 20000000 roll_rate]
             (fst (OpticalFlowCallback_frames flow0 new_sensors)) in
  let s' := fst (ImuCallback_frames (imu_at 30000000 roll_rate) s) in
  (vx (optflow_gyro s) == 1 # 200)%Q ∧ (vx (optflow_gyro s') == 1 # 100)%Q
  ∧ (Vector3_norm2 (optflow_gyro s) <= Vector3_norm2 (optflow_gyro s'))%Q.
Proof.
  intros s s'. split; [reflexivity |]. split; [reflexivity |].
  exact (proj2 (proj2 (optflow_gyro_accumulation roll_rate flow0 new_sensors
           [imu_at 10000000 roll_rate; imu_at 20000000 roll_rate]
           (imu_at 30000000 roll_rate)
           ltac:(repeat constructor) eq_refl))).
Defined.

(** ** Configuration *)

Section ConfigurationFacts.
Context `{L : MavlinkLib}.
Variable Get_bool : string → bool.
Variable Get_int : string → Z.
Variable inet_addr : string → Z.

Lemma HasElement_None (sdf : gmap string string) (name : string) :
  sdf !! name = None → HasElement sdf name = false.
Proof.
  intros Hnone. unfold HasElement. apply bool_decide_eq_false.
  rewrite Hnone. intros [x Hx]. discriminate Hx.
Qed.

Lemma HasElement_Some (sdf : gmap string string) (name e : string) :
  sdf !! name = Some e → HasElement sdf name = true.
Proof.
  intros Hsome. unfold HasElement. apply bool_decide_eq_true.
  rewrite Hsome. exists e. reflexivity.
Qed.

(** With a "hil_state_level" element both flags are assigned, the first
    one from the "hil_mode" element, which has to be there. *)
Lemma Load_hil_present (sdf : gmap string string) (e : string) (s : sensors) :
  sdf !! "hil_state_level" = Some e →
  Load_hil Get_bool sdf s
  = (m ← sdf !! "hil_mode";
     Some (set_hil_state_level (Get_bool e) (set_hil_mode (Get_bool m) s))).
Proof.
  intros Hsome. unfold Load_hil, GetElement.
  rewrite (HasElement_Some _ _ _ Hsome), Hsome.
  destruct (sdf !! "hil_mode"); reflexivity.
Qed.

Lemma Load_sens (env : load_env) (sdf : gmap string string) (p p' : plugin) :
  Load Get_bool Get_int inet_addr env sdf p = Some p' →
  ∃ s1, Load_imu_rate Get_int sdf (set_last_imu_time (sim_time env) (sens p))
        = Some s1
        ∧ Load_hil Get_bool sdf s1 = Some (sens p').
Proof.
  unfold Load. intros Hload.
  destruct (Load_imu_rate Get_int sdf _) as [s1 |] eqn:H1; [| discriminate].
  simpl in Hload.
  destruct (Load_hil Get_bool sdf s1) as [s2 |] eqn:H2; [| discriminate].
  simpl in Hload.
  destruct (Load_serial Get_bool env sdf (link p)) as [t |]; [| discriminate].
  simpl in Hload. injection Hload as <-. exists s1. split; reflexivity || exact H2.
Qed.

Lemma Load_imu_rate_hil (sdf : gmap string string) (s s1 : sensors) :
  Load_imu_rate Get_int sdf s = Some s1 →
  hil_mode_ s1 = hil_mode_ s ∧ hil_state_level_ s1 = hil_state_level_ s.
Proof.
  unfold Load_imu_rate. destruct (HasElement sdf "imu_rate").
  - destruct (GetElement sdf "imu_rate") as [e |]; [| discriminate]. simpl.
    destruct (Get_int e =? 0); [discriminate |].
    intros [= <-]. split; reflexivity.
  - intros [= <-]. split; reflexivity.
Qed.

(** C9: both assignments of [Load], the one of [hil_mode_] and the one
    of [hil_state_level_], are under the test for a "hil_state_level"
    element: without that element this part of [Load] returns the flags
    as they were, so a plugin loaded from such a configuration has
    [hil_mode_] at its default [false], with or without a "hil_mode"
    element. *)
Theorem hil_mode_guarded_by_hil_state_level (env : load_env)
    (sdf : gmap string string) (tx0 : bool) (c0 : mavlink_channel)
    (p' : plugin) :
  sdf !! "hil_state_level" = None →
  (∀ s, Load_hil Get_bool sdf s = Some s)
  ∧ (Load Get_bool Get_int inet_addr env sdf (new_plugin tx0 c0) = Some p' →
     hil_mode_ (sens p') = false ∧ hil_state_level_ (sens p') = false).
Proof.
  intros Hnone.
  assert (Hhil : ∀ s, Load_hil Get_bool sdf s = Some s).
  { intros s. unfold Load_hil. rewrite (HasElement_None _ _ Hnone).
    reflexivity. }
  split; [exact Hhil |]. intros Hload.
  destruct (Load_sens _ _ _ _ Hload) as (s1 & H1 & H2).
  rewrite Hhil in H2. injection H2 as <-.
  apply Load_imu_rate_hil in H1. destruct H1 as [-> ->].
  split; reflexivity.
Qed.

End ConfigurationFacts.

Lemma hil_mode_guarded_by_hil_state_level_witness :
  hil_mode_only !! "hil_mode" = Some "true"
  ∧ ∃ p', Load (L := Mini.lib) is_true (λ _, 0) (λ _, 0) env0 hil_mode_only
            Mini.plugin0 = Some p'
          ∧ hil_mode_ (sens p') = false.
Proof.
  split; [reflexivity |].
  eexists. split; [reflexivity |].
  refine (proj1 (proj2 (hil_mode_guarded_by_hil_state_level (L := Mini.lib)
            is_true (λ _, 0) (λ _, 0) env0 hil_mode_only false
            (zero_message, zero_status) _ eq_refl) eq_refl)).
Defined.

(** ** The serial link, byte by byte *)

Lemma dpos_wf (b : MsgBuffer) :
  wf_buffer b → dpos b = drop (Z.to_nat (pos b)) (data b).
Proof.
  intros [Hlen Hpos]. unfold dpos, nbytes. apply take_ge.
  rewrite length_drop. lia.
Qed.

Lemma length_dpos (b : MsgBuffer) :
  wf_buffer b → Z.of_nat (length (dpos b)) = nbytes b.
Proof.
  intros Hwf. rewrite (dpos_wf b Hwf). destruct Hwf as [Hlen Hpos].
  rewrite length_drop. unfold nbytes. lia.
Qed.

Lemma wf_advance (b : MsgBuffer) (n : Z) :
  wf_buffer b → 0 <= n <= nbytes b → wf_buffer (advance n b).
Proof.
  intros [Hlen Hpos] Hn. unfold nbytes in Hn. split; simpl; lia.
Qed.

Lemma dpos_advance (b : MsgBuffer) (n : Z) :
  wf_buffer b → 0 <= n <= nbytes b →
  dpos (advance n b) = drop (Z.to_nat n) (dpos b).
Proof.
  intros Hwf Hn. rewrite (dpos_wf _ (wf_advance b n Hwf Hn)).
  rewrite (dpos_wf b Hwf). simpl. rewrite drop_drop. f_equal.
  destruct Hwf as [_ Hpos]. lia.
Qed.

Lemma wf_MsgBuffer_of `{L : MavlinkLib} (m : mavlink_message_t) :
  wf_buffer (MsgBuffer_of m)
  ∧ dpos (MsgBuffer_of m) = mavlink_msg_to_send_buffer m.
Proof.
  assert (Hwf : wf_buffer (MsgBuffer_of m)) by (split; simpl; lia).
  split; [exact Hwf |]. rewrite (dpos_wf _ Hwf). reflexivity.
Qed.

Lemma pending_app (t : transport) (q : list MsgBuffer) :
  pending (set_tx_q (tx_q t ++ q) t) = pending t ++ concat (map dpos q).
Proof. unfold pending. simpl. rewrite map_app, concat_app. reflexivity. Qed.

Section SerialFacts.
Context `{L : MavlinkLib}.

(** One event keeps the link consistent and moves bytes from the queue
    to the device only. *)
Lemma io_step_conserves (e : io_event) (t : transport) :
  serial_inv t →
  match e with Ev_write_done _ n => device_ok n t | _ => True end →
  ∃ t', io_step e t = Some t' ∧ serial_inv t'
        ∧ step_transferred e t ++ pending t'
          = pending t ++ step_accepted e t.
Proof.
  intros [Hwf Hfl] Hok. destruct e as [m port | | err n]; simpl.
  - (* a frame is sent *)
    eexists. split; [reflexivity |]. unfold send_mavlink_message.
    destruct (serial_enabled_ t && (port =? 0)); simpl.
    + destruct (dev_open t); simpl.
      * destruct (wf_MsgBuffer_of m) as [Hm Hd].
        assert (Heq : ∀ t0 : transport,
                   (if MAX_TXQ_SIZE <=? Z.of_nat (length (tx_q t)) then t0
                    else t0) = t0) by (intros; destruct (_ <=? _); reflexivity).
        rewrite Heq. split; [split |].
        -- simpl. apply Forall_app. split; [exact Hwf |].
           constructor; [exact Hm | constructor].
        -- simpl. intros w Hw. destruct (Hfl w Hw) as (b & rest & Hq & ->).
           exists b, (rest ++ [MsgBuffer_of m]). rewrite Hq. split; reflexivity.
        -- unfold pending. simpl. rewrite map_app, concat_app. simpl.
           rewrite Hd, app_nil_r. reflexivity.
      * split; [split; assumption |]. rewrite app_nil_r. reflexivity.
    + split; [split; assumption |]. rewrite app_nil_r. reflexivity.
  - (* the next posted handler runs *)
    destruct (posted t) as [| [c] rest].
    + eexists. split; [reflexivity |]. split; [split; assumption |].
      rewrite app_nil_r. reflexivity.
    + eexists. split; [reflexivity |]. unfold do_write. simpl.
      destruct (c && tx_in_progress t).
      * split; [split; assumption |]. rewrite app_nil_r. reflexivity.
      * destruct (tx_q t) as [| b q] eqn:Hq.
        -- split; [split; simpl; rewrite ?Hq; assumption |].
           unfold pending. simpl. rewrite Hq. reflexivity.
        -- split; [split |].
           ++ simpl. rewrite Hq. exact Hwf.
           ++ simpl. intros w [= <-]. exists b, q. rewrite Hq. split; reflexivity.
           ++ unfold pending. simpl. rewrite Hq, app_nil_r. reflexivity.
  - (* the device completes *)
    destruct (inflight t) as [w |] eqn:Hw.
    + destruct (Hfl w eq_refl) as (b & rest & Hq & ->).
      specialize (Hok _ Hw).
      assert (Hb : wf_buffer b) by (rewrite Hq in Hwf; inversion Hwf; assumption).
      assert (Hrest : Forall wf_buffer rest)
        by (rewrite Hq in Hwf; inversion Hwf; assumption).
      pose proof (length_dpos b Hb) as Hlen.
      assert (Hnb : 0 <= n <= nbytes b) by lia.
      unfold do_write_handler. simpl. rewrite Hq.
      destruct (Z.leb_spec n (buf_len b)) as [_ | Hgt];
        [| destruct Hb as [_ Hp]; unfold nbytes in Hnb; lia].
      simpl. destruct err.
      * eexists. split; [reflexivity |]. split; [split |].
        -- simpl. rewrite ?Hq. constructor; assumption.
        -- simpl. intros w [=].
        -- unfold pending. simpl. rewrite Hq, app_nil_r. reflexivity.
      * pose proof (dpos_advance b n Hb Hnb) as Hadv.
        pose proof (wf_advance b n Hb Hnb) as Hwfa.
        destruct (Z.eqb_spec (nbytes (advance n b)) 0) as [Hz | Hnz].
        -- (* the frame is finished *)
           assert (Hall : take (Z.to_nat n) (dpos b) = dpos b).
           { apply take_ge. unfold nbytes, advance in Hz. simpl in Hz.
             unfold nbytes in Hlen. lia. }
           destruct rest as [| h r]; simpl.
           ++ eexists. split; [reflexivity |]. split; [split |].
              ** simpl. constructor.
              ** simpl. intros w [=].
              ** unfold pending. simpl. rewrite Hq. simpl.
                 rewrite Hall, ?app_nil_r. reflexivity.
           ++ eexists. split; [reflexivity |]. split; [split |].
              ** simpl. exact Hrest.
              ** simpl. intros w [= <-]. exists h, r. split; reflexivity.
              ** unfold pending. simpl. rewrite Hq. simpl.
                 rewrite Hall, ?app_nil_r. reflexivity.
        -- (* the rest of the frame is written next *)
           simpl. eexists. split; [reflexivity |]. split; [split |].
           ++ simpl. constructor; assumption.
           ++ simpl. intros w [= <-]. eexists _, rest. split; reflexivity.
           ++ unfold pending. simpl. rewrite Hq. simpl.
              rewrite app_nil_r, app_assoc. f_equal.
              change (dpos {| data := data b; buf_len := buf_len b;
                              pos := pos b + n |})
                with (dpos (advance n b)).
              rewrite Hadv. apply take_drop.
    + eexists. split; [reflexivity |].
      split; [split; rewrite ?Hw; assumption |].
      destruct err; rewrite ?app_nil_r; reflexivity.
Qed.

(** X1: through any sequence of sends, posted drains and device
    completions in which the device never reports more bytes than it was
    given, the run goes through (no assertion fails), the write in
    flight stays the rest of the frame at the front of the queue, and
    the bytes the device took followed by the bytes still pending are
    the bytes that were pending at the start followed by the frames
    accepted since: no byte is lost, repeated or out of order. *)
Theorem io_run_conserves_bytes (es : list io_event) (t : transport) :
  serial_inv t → run_ok es t →
  ∃ t', io_run es t = Some t' ∧ serial_inv t'
        ∧ transferred es t ++ pending t' = pending t ++ accepted es t.
Proof.
  revert t. induction es as [| e es IH]; intros t Hinv Hok; simpl.
  - exists t. split; [reflexivity |]. split; [exact Hinv |].
    rewrite app_nil_r. reflexivity.
  - destruct Hok as [Hdev Hrest].
    destruct (io_step_conserves e t Hinv Hdev) as (t1 & Hstep & Hinv1 & Hcons).
    rewrite Hstep. simpl.
    destruct (IH t1 Hinv1 (Hrest t1 Hstep)) as (t2 & Hrun & Hinv2 & Hcons2).
    exists t2. split; [exact Hrun |]. split; [exact Hinv2 |].
    rewrite <- app_assoc, Hcons2, !app_assoc, Hcons. reflexivity.
Qed.

End SerialFacts.

Lemma serial_link_inv : serial_inv Mini.serial_link.
Proof. split; [constructor | intros w [=]]. Qed.

Lemma run_okb_ok `{L : MavlinkLib} (es : list io_event) (t : transport) :
  run_okb es t = true → run_ok es t.
Proof.
  revert t. induction es as [| e es IH]; intros t Hb; simpl; [exact I |].
  simpl in Hb. apply andb_true_iff in Hb. destruct Hb as [Hdev Hrest]. split.
  - destruct e as [| | err n]; try exact I.
    intros w Hw. rewrite Hw in Hdev. apply andb_true_iff in Hdev. lia.
  - intros t' Hstep. rewrite Hstep in Hrest. apply IH. exact Hrest.
Qed.

Lemma two_frames_run_ok : run_ok (L := Mini.lib) two_frames_run Mini.serial_link.
Proof. apply run_okb_ok. vm_compute. reflexivity. Qed.

Lemma io_run_conserves_bytes_witness :
  ∃ t', io_run (L := Mini.lib) two_frames_run Mini.serial_link = Some t'
        ∧ serial_inv t'
        ∧ transferred (L := Mini.lib) two_frames_run Mini.serial_link
          ++ pending t'
          = pending Mini.serial_link
            ++ accepted (L := Mini.lib) two_frames_run Mini.serial_link.
Proof.
  exact (io_run_conserves_bytes (L := Mini.lib) two_frames_run
           Mini.serial_link serial_link_inv two_frames_run_ok).
Defined.

(** In that run the device took the two frames whole and in order. *)
Example two_frames_run_transferred :
  transferred (L := Mini.lib) two_frames_run Mini.serial_link
  = Mini.frame [7] ++ Mini.frame [8; 9]
  ∧ (tx_q <$> io_run (L := Mini.lib) two_frames_run Mini.serial_link)
    = Some [].
Proof. split; reflexivity. Qed.

Section DrainFacts.
Context `{L : MavlinkLib}.

Lemma send_many_serial (ms : list mavlink_message_t) (t : transport) :
  serial_enabled_ t = true → dev_open t = true →
  send_many ms t
  = set_posted (posted t ++ repeat (Task_do_write true) (length ms))
      (set_tx_q (tx_q t ++ map MsgBuffer_of ms) t).
Proof.
  unfold send_many. revert t.
  induction ms as [| m ms IH]; intros t Hs Ho; simpl.
  - rewrite !app_nil_r. destruct t; reflexivity.
  - rewrite IH by (rewrite send_serial_open by assumption; assumption).
    rewrite send_serial_open by assumption. unfold post, set_posted, set_tx_q.
    simpl. rewrite <- !app_assoc. reflexivity.
Qed.

(** The handler after a write that took the whole rest of the frame. *)
Lemma handler_full_write (t : transport) (b : MsgBuffer)
    (q : list MsgBuffer) :
  tx_q t = b :: q → wf_buffer b →
  do_write_handler false (Z.of_nat (length (dpos b))) t
  = Some match q with
         | [] => set_tx_in_progress false (set_tx_q [] (set_inflight None t))
         | _ :: _ => do_write false (set_tx_q q (set_inflight None t))
         end.
Proof.
  intros Hq Hb. pose proof (length_dpos b Hb) as Hlen.
  assert (Hz : (nbytes (advance (Z.of_nat (length (dpos b))) b) =? 0) = true).
  { apply Z.eqb_eq. unfold nbytes in *. simpl. lia. }
  unfold do_write_handler. simpl. rewrite Hq.
  destruct (Z.leb_spec (Z.of_nat (length (dpos b))) (buf_len b)) as [_ | Hgt];
    [| destruct Hb as [_ Hp]; unfold nbytes in Hlen; lia].
  simpl. rewrite Hz. destruct q; reflexivity.
Qed.

Lemma drain_full (q : list MsgBuffer) :
  ∀ (t : transport) (b : MsgBuffer),
    tx_q t = b :: q → Forall wf_buffer (b :: q) →
    inflight t = Some (dpos b) →
    ∃ t', drain (S (length q)) t = Some t'
      ∧ tx_q t' = [] ∧ inflight t' = None ∧ tx_in_progress t' = false
      ∧ writes t' = writes t ++ map dpos q ∧ sent t' = sent t.
Proof.
  induction q as [| h r IH]; intros t b Hq Hwf Hfl;
    inversion Hwf as [| ? ? Hb Hrest]; subst;
    cbn [drain length]; rewrite Hfl; cbn [io_step]; rewrite Hfl;
    rewrite (handler_full_write t b _ Hq Hb); cbn [mbind option_bind].
  - eexists. split; [reflexivity |]. cbn. rewrite app_nil_r. repeat split.
  - destruct (IH (do_write false (set_tx_q (h :: r) (set_inflight None t))) h
                eq_refl Hrest eq_refl)
      as (t' & Hdrain & Hq' & Hfl' & Hp' & Hw' & Hs').
    exists t'. split; [exact Hdrain |]. repeat split; try assumption.
    rewrite Hw'. cbn. rewrite <- app_assoc. reflexivity.
Qed.

(** X2: on an idle open serial link, frames sent one after the other
    and then drained by a device that writes every request whole reach
    the device complete, once each and in the order they were sent, in
    one write per frame; the queue is then empty, no write is marked in
    progress and nothing went out over UDP. *)
Theorem serial_frames_written_in_order (ms : list mavlink_message_t)
    (t : transport) :
  serial_enabled_ t = true → dev_open t = true → tx_q t = [] →
  tx_in_progress t = false → inflight t = None → posted t = [] →
  ∃ t1 t2,
    io_step Ev_run_posted (send_many ms t) = Some t1
    ∧ drain (length ms) t1 = Some t2
    ∧ writes t2 = writes t ++ map mavlink_msg_to_send_buffer ms
    ∧ tx_q t2 = [] ∧ inflight t2 = None ∧ tx_in_progress t2 = false
    ∧ sent t2 = sent t.
Proof.
  intros Hs Ho Hq Hp Hfl Hposted.
  rewrite send_many_serial by assumption. rewrite Hq, Hposted. cbn [app].
  destruct ms as [| m ms].
  - cbn. exists (set_posted [] (set_tx_q [] t)), (set_posted [] (set_tx_q [] t)).
    cbn. rewrite app_nil_r. repeat split; assumption.
  - cbn [length repeat map].
    set (t0 := set_posted
                 (Task_do_write true :: repeat (Task_do_write true) (length ms))
                 (set_tx_q (MsgBuffer_of m :: map MsgBuffer_of ms) t)).
    set (t1 := async_write_some (dpos (MsgBuffer_of m))
                 (set_tx_in_progress true
                    (set_posted (repeat (Task_do_write true) (length ms)) t0))).
    assert (Hstep : io_step Ev_run_posted t0 = Some t1).
    { unfold t1, t0. cbn [io_step posted set_posted]. unfold do_write.
      cbn [tx_in_progress tx_q set_posted set_tx_q]. rewrite Hp. reflexivity. }
    assert (Hwf : Forall wf_buffer (MsgBuffer_of m :: map MsgBuffer_of ms)).
    { constructor; [apply wf_MsgBuffer_of |].
      apply List.Forall_forall. intros b Hin.
      apply in_map_iff in Hin. destruct Hin as (m' & <- & _).
      apply wf_MsgBuffer_of. }
    destruct (drain_full (map MsgBuffer_of ms) t1 (MsgBuffer_of m)
                eq_refl Hwf eq_refl)
      as (t2 & Hdrain & Hq2 & Hfl2 & Hp2 & Hw2 & Hs2).
    rewrite length_map in Hdrain.
    exists t1, t2. split; [exact Hstep |]. split; [exact Hdrain |].
    repeat split; try assumption.
    rewrite Hw2. unfold t1, t0. cbn [writes async_write_some set_posted
      set_tx_in_progress set_tx_q]. rewrite <- app_assoc. cbn [app].
    f_equal. f_equal.
    + apply wf_MsgBuffer_of.
    + rewrite map_map. apply map_ext. intros m'. apply wf_MsgBuffer_of.
Qed.

End DrainFacts.

Lemma serial_frames_written_in_order_witness :
  ∃ t1 t2,
    io_step (L := Mini.lib) Ev_run_posted
      (send_many (L := Mini.lib) [Mini.message [7]; Mini.message [8; 9]]
         Mini.serial_link) = Some t1
    ∧ drain (L := Mini.lib) 2 t1 = Some t2
    ∧ writes t2 = [] ++ [Mini.frame [7]; Mini.frame [8; 9]]
    ∧ tx_q t2 = [] ∧ inflight t2 = None ∧ tx_in_progress t2 = false
    ∧ sent t2 = [].
Proof.
  exact (serial_frames_written_in_order (L := Mini.lib)
           [Mini.message [7]; Mini.message [8; 9]] Mini.serial_link
           eq_refl eq_refl eq_refl eq_refl eq_refl eq_refl).
Defined.

(** ** What the receive paths hand on *)

Section RouterFacts.
Context `{L : MavlinkLib}.

Lemma send_keeps_config (m : mavlink_message_t) (port : Z) (t : transport) :
  let t' := send_mavlink_message m port t in
  serial_enabled_ t' = serial_enabled_ t ∧ dev_open t' = dev_open t
  ∧ _srcaddr t' = _srcaddr t ∧ qgc_udp_port_ t' = qgc_udp_port_ t.
Proof.
  unfold send_mavlink_message.
  destruct (serial_enabled_ t && (port =? 0)).
  - destruct (negb (dev_open t)); [repeat split |].
    destruct (MAX_TXQ_SIZE <=? Z.of_nat (length (tx_q t))); repeat split.
  - repeat split.
Qed.

Lemma parse_byte_frame_byte (now c : Z) (p : plugin)
    (message : mavlink_message_t) :
  parse_byte now c (p, message)
  = let '(status, buffer, message', out) :=
      frame_byte c (m_status p, m_buffer p, message) in
    (match out with
     | Some m =>
         set_act (handle_message now m (act p))
           (send m (qgc_udp_port_ (link p)) (set_rx status buffer p))
     | None => set_rx status buffer p
     end, message').
Proof.
  unfold parse_byte, frame_byte.
  destruct (mavlink_frame_char_buffer (m_buffer p) (m_status p) c message)
    as [[[res buffer] status] message'].
  destruct res; simpl; destruct (c =? MAVLINK_STX); reflexivity.
Qed.

(** The serial path dispatches what the framer hands on, each message
    once and in order: to [send_mavlink_message] with the ground-station
    port, and to [handle_message]. *)
Lemma parse_buffer_dispatch (now : Z) (bytes : list Z) :
  ∀ (p : plugin) (message : mavlink_message_t),
    let frames := frames_of bytes (m_status p, m_buffer p, message) in
    let p' := fst (parse_buffer now bytes (p, message)) in
    link p'
    = fold_left (λ t m, send_mavlink_message m (qgc_udp_port_ (link p)) t)
        frames (link p)
    ∧ act p' = handle_all now frames (act p).
Proof.
  unfold parse_buffer.
  induction bytes as [| c bytes IH]; intros p message; [split; reflexivity |].
  cbn [fold_left frames_of]. rewrite parse_byte_frame_byte.
  destruct (frame_byte c (m_status p, m_buffer p, message))
    as [[[status buffer] message'] [m |]].
  - specialize (IH (set_act (handle_message now m (act p))
                      (send m (qgc_udp_port_ (link p)) (set_rx status buffer p)))
                  message').
    cbn [m_status m_buffer set_act send set_link set_rx link act] in IH.
    destruct IH as [IHl IHa]. split.
    + rewrite IHl.
      rewrite (proj2 (proj2 (proj2 (send_keeps_config m _ (link p))))).
      reflexivity.
    + rewrite IHa. reflexivity.
  - specialize (IH (set_rx status buffer p) message').
    cbn [m_status m_buffer set_rx link act] in IH. exact IH.
Qed.

Lemma fold_send_udp (port : Z) (frames : list mavlink_message_t) :
  ∀ t : transport,
    serial_enabled_ t && (port =? 0) = false →
    let t' := fold_left (λ t m, send_mavlink_message m port t) frames t in
    sent t'
    = sent t ++ map (λ m, (_srcaddr t, mavlink_msg_to_send_buffer m)) frames
    ∧ tx_q t' = tx_q t ∧ posted t' = posted t ∧ writes t' = writes t.
Proof.
  induction frames as [| m frames IH]; intros t Hudp; simpl.
  - rewrite app_nil_r. repeat split.
  - assert (Hudp' : serial_enabled_ (send_mavlink_message m port t)
                    && (port =? 0) = false)
      by (rewrite (proj1 (send_keeps_config m port t)); exact Hudp).
    destruct (IH _ Hudp') as (Hs & Hq & Hp & Hw).
    rewrite Hs, Hq, Hp, Hw.
    rewrite (proj1 (proj2 (proj2 (send_keeps_config m port t)))).
    rewrite send_udp by exact Hudp. simpl. rewrite <- app_assoc.
    repeat split.
Qed.

Lemma fold_send_serial (frames : list mavlink_message_t) :
  ∀ t : transport,
    serial_enabled_ t = true → dev_open t = true →
    let t' := fold_left (λ t m, send_mavlink_message m 0 t) frames t in
    tx_q t' = tx_q t ++ map MsgBuffer_of frames ∧ sent t' = sent t
    ∧ _srcaddr t' = _srcaddr t.
Proof.
  intros t Hs Ho. pose proof (send_many_serial frames t Hs Ho) as Hmany.
  unfold send_many in Hmany. cbv zeta. rewrite Hmany. repeat split.
Qed.

(** X3: with a ground-station port other than zero, the bytes read from
    the serial device put nothing on the serial transmit queue, and
    every message the framer hands on is sent once over UDP to the peer
    [_srcaddr] and decoded once, in the order of arrival. *)
Theorem serial_frames_forwarded_once (now : Z) (bytes : list Z) (p : plugin)
    (message : mavlink_message_t) :
  qgc_udp_port_ (link p) ≠ 0 →
  let frames := frames_of bytes (m_status p, m_buffer p, message) in
  let p' := fst (parse_buffer now bytes (p, message)) in
  sent (link p')
  = sent (link p)
    ++ map (λ m, (_srcaddr (link p), mavlink_msg_to_send_buffer m)) frames
  ∧ tx_q (link p') = tx_q (link p)
  ∧ act p' = handle_all now frames (act p).
Proof.
  intros Hport frames p'.
  destruct (parse_buffer_dispatch now bytes p message) as [Hl Ha].
  fold frames p' in Hl, Ha. rewrite Hl.
  assert (Hudp : serial_enabled_ (link p) && (qgc_udp_port_ (link p) =? 0)
                 = false).
  { apply andb_false_iff. right. apply Z.eqb_neq. exact Hport. }
  destruct (fold_send_udp _ frames (link p) Hudp) as (Hs & Hq & _).
  split; [exact Hs |]. split; [exact Hq | exact Ha].
Qed.

(** X4: with serial transport on, the device open and a ground-station
    port of zero, every message the framer hands on from the serial
    device is put back on the serial transmit queue, and none goes out
    over UDP. *)
Theorem serial_frames_echoed_on_port_zero (now : Z) (bytes : list Z)
    (p : plugin) (message : mavlink_message_t) :
  qgc_udp_port_ (link p) = 0 →
  serial_enabled_ (link p) = true → dev_open (link p) = true →
  let frames := frames_of bytes (m_status p, m_buffer p, message) in
  let p' := fst (parse_buffer now bytes (p, message)) in
  tx_q (link p') = tx_q (link p) ++ map MsgBuffer_of frames
  ∧ sent (link p') = sent (link p).
Proof.
  intros Hport Hs Ho frames p'.
  destruct (parse_buffer_dispatch now bytes p message) as [Hl _].
  fold frames p' in Hl. rewrite Hl, Hport.
  destruct (fold_send_serial frames (link p) Hs Ho) as (Hq & Hsent & _).
  split; assumption.
Qed.

Lemma poll_byte_parsed (now : Z) (bytes : list Z) :
  ∀ p : plugin,
    let ms := parsed_of bytes (chan0 p) in
    let p' := fold_left (poll_byte now) bytes p in
    link p'
    = (if serial_enabled_ (link p)
       then fold_left (λ t m, send_mavlink_message m 0 t) ms (link p)
       else link p)
    ∧ act p' = handle_all now ms (act p).
Proof.
  unfold handle_all.
  induction bytes as [| c bytes IH]; intros p.
  - cbn. destruct (serial_enabled_ (link p)); split; reflexivity.
  - cbn [fold_left parsed_of].
    assert (Hpb : poll_byte now p c
                  = let '(r, ch) := mavlink_parse_char (chan0 p) c in
                    match r with
                    | Some msg =>
                        set_act
                          (handle_message now msg
                             (act (if serial_enabled_ (link p)
                                   then send msg 0 (set_chan0 ch p)
                                   else set_chan0 ch p)))
                          (if serial_enabled_ (link p)
                           then send msg 0 (set_chan0 ch p)
                           else set_chan0 ch p)
                    | None => set_chan0 ch p
                    end).
    { unfold poll_byte. destruct (mavlink_parse_char (chan0 p) c) as [[m |] ch];
        reflexivity. }
    rewrite Hpb. clear Hpb.
    destruct (mavlink_parse_char (chan0 p) c) as [[m |] ch].
    + destruct (serial_enabled_ (link p)) eqn:Hs.
      * specialize (IH (set_act (handle_message now m (act p))
                          (send m 0 (set_chan0 ch p)))).
        cbn [chan0 set_act send set_link set_chan0 link act] in IH.
        rewrite (proj1 (send_keeps_config m 0 (link p))), Hs in IH.
        cbn [act send set_link set_chan0 fold_left]. exact IH.
      * specialize (IH (set_act (handle_message now m (act p))
                          (set_chan0 ch p))).
        cbn [chan0 set_act set_chan0 link act] in IH. rewrite Hs in IH.
        cbn [act set_chan0 fold_left]. exact IH.
    + specialize (IH (set_chan0 ch p)).
      cbn [chan0 set_chan0 link act] in IH. exact IH.
Qed.

(** X5: with serial transport on and the device open, a datagram makes
    its sender the UDP peer, and every message it holds is put on the
    serial transmit queue and decoded, once each and in order; nothing is
    sent over UDP. *)
Theorem poll_mirrors_to_serial (now : Z) (src : sockaddr_in)
    (bytes : list Z) (p : plugin) :
  serial_enabled_ (link p) = true → dev_open (link p) = true →
  let ms := parsed_of bytes (chan0 p) in
  let p' := pollForMAVLinkMessages now (Some (src, bytes)) p in
  tx_q (link p') = tx_q (link p) ++ map MsgBuffer_of ms
  ∧ sent (link p') = sent (link p)
  ∧ _srcaddr (link p') = src
  ∧ act p' = handle_all now ms (act p).
Proof.
  intros Hs Ho ms p'. subst ms p'. cbn [pollForMAVLinkMessages].
  destruct (poll_byte_parsed now bytes (set_link (set_srcaddr src (link p)) p))
    as [Hl Ha].
  cbn [link set_link chan0 act serial_enabled_ set_srcaddr] in Hl, Ha.
  rewrite Hs in Hl. rewrite Hl, Ha.
  destruct (fold_send_serial (parsed_of bytes (chan0 p))
              (set_srcaddr src (link p)) Hs Ho) as (Hq & Hsent & Haddr).
  rewrite Hq, Hsent, Haddr. repeat split.
Qed.

(** X6: with serial transport off, a datagram is decoded and sends
    nothing at all; its sender becomes the UDP peer, so the next frame
    the plugin sends goes to that sender, whatever the port argument. *)
Theorem poll_sets_udp_peer (now : Z) (src : sockaddr_in) (bytes : list Z)
    (p : plugin) (m : mavlink_message_t) (port : Z) :
  serial_enabled_ (link p) = false →
  let p' := pollForMAVLinkMessages now (Some (src, bytes)) p in
  link p' = set_srcaddr src (link p)
  ∧ act p' = handle_all now (parsed_of bytes (chan0 p)) (act p)
  ∧ sent (send_mavlink_message m port (link p'))
    = sent (link p) ++ [(src, mavlink_msg_to_send_buffer m)].
Proof.
  intros Hs p'. subst p'. cbn [pollForMAVLinkMessages].
  destruct (poll_byte_parsed now bytes (set_link (set_srcaddr src (link p)) p))
    as [Hl Ha].
  cbn [link set_link chan0 act serial_enabled_ set_srcaddr] in Hl, Ha.
  rewrite Hs in Hl. rewrite Hl, Ha. split; [reflexivity |].
  split; [reflexivity |].
  rewrite send_udp by (cbn; rewrite Hs; reflexivity). reflexivity.
Qed.

(** X7: the constructor gives [tx_in_progress] no value; if it holds
    [true], the serial link that [Load] sets up never starts a write,
    whatever is sent and however often the drain runs. *)
Theorem uninitialised_tx_in_progress_blocks (Get_bool : string → bool)
    (env : load_env) (sdf : gmap string string) (t : transport)
    (es : list io_event) :
  Load_serial Get_bool env sdf (new_transport true) = Some t →
  ∃ t', io_run es t = Some t' ∧ writes t' = [] ∧ tx_in_progress t' = true.
Proof.
  intros Hload. unfold Load_serial in Hload.
  destruct (HasElement sdf "serialEnabled");
    [destruct (GetElement sdf "serialEnabled"); [| discriminate] |];
    simpl in Hload; injection Hload as <-.
  all: match goal with
       | |- ∃ t', io_run ?es0 ?t0 = _ ∧ _ =>
           destruct (io_run_blocked es0 t0) as (t' & Hrun & Hb & Hw & _);
           [repeat split; constructor
           | exists t'; split; [exact Hrun |]; split; [exact Hw | apply Hb]]
       end.
Qed.

End RouterFacts.

Lemma serial_frames_forwarded_once_witness :
  sent (link (fst (parse_buffer (L := Mini.lib) 5 corrupted_then_valid
                     (Mini.serial_plugin, zero_message))))
  = [({| sin_addr := 2130706433; sin_port := 14550 |}, [253; 1; 7; 253]);
     ({| sin_addr := 2130706433; sin_port := 14550 |}, [253; 0; 255])]
  ∧ tx_q (link (fst (parse_buffer (L := Mini.lib) 5 corrupted_then_valid
                       (Mini.serial_plugin, zero_message)))) = [].
Proof.
  destruct (serial_frames_forwarded_once (L := Mini.lib) 5 corrupted_then_valid
              Mini.serial_plugin zero_message ltac:(vm_compute; discriminate))
    as (Hsent & Hq & _).
  split; [exact Hsent | exact Hq].
Defined.

Lemma serial_frames_echoed_on_port_zero_witness :
  tx_q (link (fst (parse_buffer (L := Mini.lib) 5 (Mini.frame [1; 2])
                     (echo_plugin, zero_message))))
  = [MsgBuffer_of (L := Mini.lib) (Mini.message [1; 2])]
  ∧ sent (link (fst (parse_buffer (L := Mini.lib) 5 (Mini.frame [1; 2])
                       (echo_plugin, zero_message)))) = [].
Proof.
  exact (serial_frames_echoed_on_port_zero (L := Mini.lib) 5
           (Mini.frame [1; 2]) echo_plugin zero_message
           eq_refl eq_refl eq_refl).
Defined.

Lemma poll_mirrors_to_serial_witness :
  let p' := pollForMAVLinkMessages (L := Mini.lib) 5
              (Some (gcs, Mini.frame [1; 2])) Mini.serial_plugin in
  tx_q (link p') = [MsgBuffer_of (L := Mini.lib) (Mini.message [1; 2])]
  ∧ sent (link p') = [] ∧ _srcaddr (link p') = gcs.
Proof.
  destruct (poll_mirrors_to_serial (L := Mini.lib) 5 gcs (Mini.frame [1; 2])
              Mini.serial_plugin eq_refl eq_refl) as (Hq & Hs & Ha & _).
  split; [exact Hq |]. split; [exact Hs | exact Ha].
Defined.

Lemma poll_sets_udp_peer_witness :
  sent (send_mavlink_message (L := Mini.lib) (Mini.message [7]) 14550
          (link (pollForMAVLinkMessages (L := Mini.lib) 5
                   (Some (gcs, Mini.frame [1; 2])) Mini.plugin0)))
  = [(gcs, Mini.frame [7])].
Proof.
  exact (proj2 (proj2 (poll_sets_udp_peer (L := Mini.lib) 5 gcs
                         (Mini.frame [1; 2]) Mini.plugin0 (Mini.message [7])
                         14550 eq_refl))).
Defined.

Lemma uninitialised_tx_in_progress_blocks_witness :
  ∃ t', io_run (L := Mini.lib)
          [Ev_send (Mini.message [7]) 0; Ev_run_posted]
          {| serial_enabled_ := true; dev_open := true;
             tx_in_progress := true; tx_q := [];
             _srcaddr := {| sin_addr := 0; sin_port := 0 |};
             qgc_udp_port_ := kDefaultMavlinkUdpPort; inflight := None;
             posted := []; writes := []; sent := []; log := [] |}
        = Some t'
        ∧ writes t' = [] ∧ tx_in_progress t' = true.
Proof.
  exact (uninitialised_tx_in_progress_blocks (L := Mini.lib) is_true env0
           serial_on _ [Ev_send (Mini.message [7]) 0; Ev_run_posted] eq_refl).
Defined.

(** ** More on the actuator reference and the encoders *)

Section MoreCodecFacts.
Context `{L : MavlinkLib}.

(** X8: an actuator-control frame decoded at simulation time zero counts
    as never received: whatever the time of the tick and whatever the
    frame commands, the motor command published is all zeros. *)
Theorem frame_at_time_zero_is_stale (now : Z) (msg : mavlink_message_t)
    (p : plugin) :
  msgid msg = MAVLINK_MSG_ID_HIL_ACTUATOR_CONTROLS →
  published (OnUpdate now None (set_act (handle_message 0 msg (act p)) p))
  = published p ++ [repeat 0%Q n_out_max].
Proof.
  intros Hid. set (a' := handle_message 0 msg (act p)).
  assert (Hf : received_first_referenc_ a' = true
               ∧ last_actuator_time_ a' = 0
               ∧ length (input_reference_ a') = n_out_max).
  { unfold a', handle_message. rewrite Hid, Z.eqb_refl.
    cbn [received_first_referenc_ last_actuator_time_ input_reference_].
    rewrite length_map, length_seq. repeat split. }
  destruct Hf as (Hr & Hl & Hn).
  unfold OnUpdate. cbn [pollForMAVLinkMessages published act set_act].
  rewrite Hr. f_equal. f_equal. unfold turning_velocities, stale.
  rewrite Hl, Z.eqb_refl. cbn [orb]. rewrite map_const_repeat, Hn.
  reflexivity.
Qed.

End MoreCodecFacts.

Lemma frame_at_time_zero_is_stale_witness :
  published (OnUpdate (L := Mini.lib) 1000
               None (set_act (handle_message (L := Mini.lib) 0 armed_msg
                                unit_actuators) Mini.plugin0))
  = [repeat 0%Q 16].
Proof.
  exact (frame_at_time_zero_is_stale (L := Mini.lib) 1000 armed_msg
           (set_act unit_actuators Mini.plugin0) eq_refl).
Defined.

(** ** More on the encoders *)

Lemma imu_gated_out (i : imu_sample) (s : sensors) :
  imu_gate s i = false → fst (ImuCallback_frames i s) = s.
Proof. intros Hg. unfold ImuCallback_frames. rewrite Hg. reflexivity. Qed.

Lemma imu_keeps_config (i : imu_sample) (s : sensors) :
  let s' := fst (ImuCallback_frames i s) in
  imu_update_interval_ s' = imu_update_interval_ s
  ∧ hil_mode_ s' = hil_mode_ s ∧ hil_state_level_ s' = hil_state_level_ s
  ∧ optflow_distance s' = optflow_distance s.
Proof.
  unfold ImuCallback_frames. destruct (imu_gate s i); [| repeat split].
  destruct (1000 <? gyro_dt_us s _); repeat split.
Qed.

Lemma imu_run_keeps_config (samples : list imu_sample) (s : sensors) :
  imu_update_interval_ (imu_run samples s) = imu_update_interval_ s
  ∧ optflow_distance (imu_run samples s) = optflow_distance s.
Proof.
  revert s. induction samples as [| i samples IH]; intros s; [split; reflexivity |].
  cbn [imu_run fold_left]. fold (imu_run samples (fst (ImuCallback_frames i s))).
  destruct (IH (fst (ImuCallback_frames i s))) as [-> ->].
  destruct (imu_keeps_config i s) as (-> & _ & _ & ->). split; reflexivity.
Qed.

(** X11: in HIL mode an IMU callback sends at most one frame: never
    both the sensor frame and the ground-truth frame. *)
Theorem imu_hil_mode_one_frame (i : imu_sample) (s : sensors) :
  hil_mode_ s = true →
  let out := snd (ImuCallback_frames i s) in
  (length out <= 1)%nat
  ∧ ¬ ((∃ m, In (Out_hil_sensor m) out)
       ∧ (∃ m, In (Out_hil_state_quaternion m) out)).
Proof.
  intros Hhil. unfold ImuCallback_frames.
  destruct (imu_gate s i).
  - destruct (1000 <? gyro_dt_us s _); cbn [snd fst hil_mode_ hil_state_level_];
      rewrite Hhil; unfold hil_gate; destruct (hil_state_level_ s);
      (split; [cbn; lia |]);
      intros [[m Hs] [m' Hq]]; cbn in Hs, Hq; intuition discriminate.
  - cbn [snd fst app]. rewrite Hhil. unfold hil_gate.
    destruct (hil_state_level_ s); (split; [cbn; lia |]);
      intros [[m Hs] [m' Hq]]; cbn in Hs, Hq; intuition discriminate.
Qed.

(** X12: sensor frames keep their distance: after a callback that
    passed the rate gate, and any callbacks the gate kept out, the next
    callback to pass the gate comes at least the update interval
    later. *)
Theorem imu_gate_passes_interval_apart (i j : imu_sample)
    (mids : list imu_sample) (s : sensors) :
  imu_gate s i = true →
  let s1 := fst (ImuCallback_frames i s) in
  Forall (λ k, imu_gate s1 k = false) mids →
  imu_gate (imu_run mids s1) j = true →
  (imu_update_interval_ s <= Double (current_time j - current_time i))%Q.
Proof.
  intros Hi s1 Hmids Hj.
  assert (Hrun : imu_run mids s1 = s1).
  { clear Hj. induction Hmids as [| k mids Hk _ IH]; [reflexivity |].
    cbn [imu_run fold_left]. rewrite (imu_gated_out k s1 Hk). exact IH. }
  rewrite Hrun in Hj. apply imu_gate_spec in Hj. destruct Hj as [_ Hle].
  unfold s1 in Hle. rewrite imu_last_time, Hi in Hle.
  rewrite (proj1 (imu_keeps_config i s)) in Hle. exact Hle.
Qed.


(** X14: the distance of the last lidar sample is the distance the next
    optical-flow frame carries, through any IMU callbacks in
    between. *)
Theorem lidar_distance_reaches_flow (l : lidar_sample)
    (samples : list imu_sample) (f : flow_sample) (s : sensors) :
  ∃ m, snd (OpticalFlowCallback_frames f
              (imu_run samples (fst (LidarCallback_frames l s))))
       = [Out_hil_optical_flow m]
       ∧ of_distance m = lidar_current_distance l.
Proof.
  eexists. split; [reflexivity |]. cbn [of_distance].
  rewrite (proj2 (imu_run_keeps_config samples _)). reflexivity.
Qed.

Section RateFacts.
Variable Get_int : string → Z.

Lemma quot_one (rate : Z) : 2 <= Z.abs rate → Z.quot 1 rate = 0.
Proof.
  intros Hr. destruct (Z_lt_le_dec rate 0) as [Hneg | Hpos].
  - replace rate with (- (- rate)) by lia. rewrite Z.quot_opp_r by lia.
    rewrite Z.quot_small by lia. reflexivity.
  - apply Z.quot_small. lia.
Qed.

(** X15: [Load] divides 1 by the "imu_rate" as an [int]: for every rate
    of two or more the update interval becomes zero, and from then on no
    IMU callback ever sends a sensor frame. *)
Theorem imu_rate_silences_sensor (sdf : gmap string string) (e : string)
    (s : sensors) :
  sdf !! "imu_rate" = Some e → 2 <= Z.abs (Get_int e) →
  ∃ s', Load_imu_rate Get_int sdf s = Some s'
    ∧ imu_update_interval_ s' = 0%Q
    ∧ ∀ samples i m,
        ¬ In (Out_hil_sensor m)
            (snd (ImuCallback_frames i (imu_run samples s'))).
Proof.
  intros He Hrate. unfold Load_imu_rate, HasElement, GetElement.
  rewrite He. rewrite bool_decide_eq_true_2 by (exists e; reflexivity).
  cbn [mbind option_bind].
  destruct (Z.eqb_spec (Get_int e) 0) as [Hz | _]; [rewrite Hz in Hrate; lia |].
  rewrite (quot_one _ Hrate). eexists. split; [reflexivity |].
  split; [reflexivity |]. intros samples i m Hin.
  set (s' := imu_run samples _) in Hin.
  assert (Hint : imu_update_interval_ s' = 0%Q)
    by (unfold s'; rewrite (proj1 (imu_run_keeps_config samples _)); reflexivity).
  assert (Hg : imu_gate s' i = false)
    by (unfold imu_gate; rewrite Hint; reflexivity).
  unfold ImuCallback_frames in Hin. rewrite Hg in Hin. cbn [snd app] in Hin.
  apply in_hil_gate in Hin. destruct Hin as [Heq _]. discriminate Heq.
Qed.

End RateFacts.

Lemma imu_hil_mode_one_frame_witness :
  snd (ImuCallback_frames (imu_at 10000000 roll_rate)
         (set_hil_mode true new_sensors))
  = [Out_hil_sensor
       {| hs_time_usec := 10000; xacc := 0; yacc := 0; zacc := 0;
          xgyro := 1 # 2; ygyro := 0; zgyro := 0;
          xmag := 0; ymag := 0; zmag := 0;
          abs_pressure := 0; diff_pressure := 0; pressure_alt := 0;
          temperature := 0; fields_updated := 4095 |}]
  ∧ ¬ ((∃ m, In (Out_hil_sensor m)
               (snd (ImuCallback_frames (imu_at 10000000 roll_rate)
                       (set_hil_mode true new_sensors))))
       ∧ (∃ m, In (Out_hil_state_quaternion m)
                 (snd (ImuCallback_frames (imu_at 10000000 roll_rate)
                         (set_hil_mode true new_sensors))))).
Proof.
  split; [reflexivity |].
  exact (proj2 (imu_hil_mode_one_frame (imu_at 10000000 roll_rate)
                  (set_hil_mode true new_sensors) eq_refl)).
Defined.

Lemma imu_gate_passes_interval_apart_witness :
  (4 # 1000 <= Double (14000000 - 10000000))%Q.
Proof.
  exact (imu_gate_passes_interval_apart (imu_at 10000000 roll_rate)
           (imu_at 14000000 roll_rate)
           [imu_at 11000000 roll_rate; imu_at 13000000 roll_rate]
           new_sensors eq_refl
           ltac:(repeat constructor) eq_refl).
Defined.


Lemma imu_rate_silences_sensor_witness :
  ∃ s', Load_imu_rate int_of imu_250 new_sensors = Some s'
    ∧ imu_update_interval_ s' = 0%Q
    ∧ ∀ samples i m,
        ¬ In (Out_hil_sensor m)
            (snd (ImuCallback_frames i (imu_run samples s'))).
Proof.
  exact (imu_rate_silences_sensor int_of imu_250 "250" new_sensors
           eq_refl ltac:(vm_compute; discriminate)).
Defined.

(** ** The control channels *)

(** The test [index < n_out_max] on an [int] index, made unsigned: it
    holds exactly for the indices 0 to 15. *)
Lemma index_test (z : Z) :
  is_int z → (uint32 z <? Z.of_nat n_out_max) = true ↔ 0 <= z < 16.
Proof.
  intros [Hlo Hhi]. unfold uint32. rewrite Z.ltb_lt.
  change (Z.of_nat n_out_max) with 16.
  destruct (Z_lt_le_dec z 0) as [Hneg | Hpos].
  - replace (z mod 4294967296) with (z + 4294967296); [lia |].
    apply (Z.mod_unique _ _ (-1)); lia.
  - rewrite Z.mod_small by lia. lia.
Qed.

Section ChannelFacts.
Variable Get_int : string → Z.
Variable Get_double : string → Q.

Lemma Load_channel_at_ok (i : nat) (ch : gmap string string)
    (tb : channel_tables) :
  tables_ok tb → (i < n_out_max)%nat →
  ∃ tb', Load_channel_at Get_double i ch tb = Some tb' ∧ tables_ok tb'
    ∧ ∀ j, j ≠ i →
        nth j (input_offset_ (tables tb')) 0%Q
        = nth j (input_offset_ (tables tb)) 0%Q
        ∧ nth j (input_scaling_ (tables tb')) 0%Q
          = nth j (input_scaling_ (tables tb)) 0%Q
        ∧ nth j (zero_position_armed_ (tables tb')) 0%Q
          = nth j (zero_position_armed_ (tables tb)) 0%Q
        ∧ nth j (zero_position_disarmed_ (tables tb')) 0%Q
          = nth j (zero_position_disarmed_ (tables tb)) 0%Q.
Proof.
  intros (H1 & H2 & H3 & H4 & H5) Hi. unfold Load_channel_at.
  rewrite bool_decide_eq_true_2 by (rewrite H1, H2, H3, H4, H5; auto).
  eexists. split; [reflexivity |]. split.
  - unfold tables_ok. cbn. rewrite !length_insert. auto.
  - intros j Hj. cbn.
    rewrite !nth_lookup, !list_lookup_insert_ne by auto. auto.
Qed.

(** X16: whatever <channel> elements the configuration holds, as long
    as their indices are values of an [int], [Load] never writes outside
    the per-channel arrays, and the arrays keep their sixteen entries. *)
Theorem load_channels_in_bounds (chs : list (gmap string string))
    (tb : channel_tables) :
  tables_ok tb →
  Forall (λ ch, ∀ e, ch !! "input_index" = Some e → is_int (Get_int e)) chs →
  ∃ tb', Load_channels Get_int Get_double chs tb = Some tb' ∧ tables_ok tb'.
Proof.
  intros Hok Hint. revert tb Hok.
  induction Hint as [| ch chs Hch _ IH]; intros tb Hok; cbn [Load_channels].
  - exists tb. split; [reflexivity | exact Hok].
  - destruct (ch !! "input_index") as [e |] eqn:He.
    + destruct (uint32 (Get_int e) <? Z.of_nat n_out_max) eqn:Htest.
      * apply (index_test _ (Hch e eq_refl)) in Htest.
        destruct (Load_channel_at_ok (Z.to_nat (Get_int e)) ch tb Hok)
          as (tb1 & -> & Hok1 & _); [unfold n_out_max; lia |].
        cbn [mbind option_bind]. apply IH. exact Hok1.
      * apply IH. exact Hok.
    + exists tb. split; [reflexivity | exact Hok].
Qed.

(** X17: a channel whose index is negative or sixteen or more is passed
    over: the tables are what the remaining channels make them. *)
Theorem load_channels_skips_bad_index (ch : gmap string string)
    (chs : list (gmap string string)) (e : string) (tb : channel_tables) :
  ch !! "input_index" = Some e → is_int (Get_int e) →
  Get_int e < 0 ∨ 16 <= Get_int e →
  Load_channels Get_int Get_double (ch :: chs) tb
  = Load_channels Get_int Get_double chs tb.
Proof.
  intros He Hint Hbad. cbn [Load_channels]. rewrite He.
  destruct (uint32 (Get_int e) <? Z.of_nat n_out_max) eqn:Htest;
    [| reflexivity].
  apply (index_test _ Hint) in Htest. lia.
Qed.

(** X18: a channel without "input_index" ends the loop: the channels
    that follow it in the configuration are not read. *)
Theorem load_channels_stops_without_index (pre post : list (gmap string string))
    (ch : gmap string string) (tb : channel_tables) :
  ch !! "input_index" = None →
  Load_channels Get_int Get_double (pre ++ ch :: post) tb
  = Load_channels Get_int Get_double pre tb.
Proof.
  intros Hnone. revert tb. induction pre as [| c pre IH]; intros tb.
  - cbn. rewrite Hnone. reflexivity.
  - cbn [app Load_channels]. destruct (c !! "input_index") as [e |]; [| reflexivity].
    destruct (uint32 (Get_int e) <? Z.of_nat n_out_max); [| apply IH].
    destruct (Load_channel_at Get_double (Z.to_nat (Get_int e)) c tb);
      [apply IH | reflexivity].
Qed.


End ChannelFacts.

Section UnconfiguredChannel.
Context `{L : MavlinkLib}.
Variable Get_int : string → Z.
Variable Get_double : string → Q.


End UnconfiguredChannel.

Lemma channels_are_ints :
  Forall (λ ch : gmap string string,
            ∀ e, ch !! "input_index" = Some e → is_int (int_of e))
    [channel3; channel_neg; channel5].
Proof.
  constructor.
  - intros e He. vm_compute in He. injection He as <-. vm_compute.
    split; [discriminate | reflexivity].
  - constructor.
    + intros e He. vm_compute in He. injection He as <-. vm_compute.
      split; [discriminate | reflexivity].
    + constructor; [| constructor].
      intros e He. vm_compute in He. injection He as <-. vm_compute.
      split; [discriminate | reflexivity].
Qed.

Lemma load_channels_in_bounds_witness :
  ∃ tb', Load_channels int_of double_of [channel3; channel_neg; channel5]
           new_tables = Some tb'
    ∧ tables_ok tb'.
Proof.
  exact (load_channels_in_bounds int_of double_of
           [channel3; channel_neg; channel5] new_tables
           ltac:(repeat split) channels_are_ints).
Defined.

(** What that configuration gives: offset 1 and scaling 2 on channel 3,
    scaling 2 on channel 5. *)
Example load_channels_values :
  (λ tb, (input_offset_ (tables tb), input_scaling_ (tables tb)))
    <$> Load_channels int_of double_of [channel3; channel_neg; channel5]
          new_tables
  = Some (<[3%nat := 1%Q]> (repeat 0%Q 16),
          <[5%nat := 2%Q]> (<[3%nat := 2%Q]> (repeat 0%Q 16))).
Proof. vm_compute. reflexivity. Qed.

Lemma load_channels_skips_bad_index_witness :
  Load_channels int_of double_of [channel_neg; channel5] new_tables
  = Load_channels int_of double_of [channel5] new_tables.
Proof.
  apply (load_channels_skips_bad_index int_of double_of channel_neg
           [channel5] "-1" new_tables).
  - reflexivity.
  - vm_compute. split; [discriminate | reflexivity].
  - left. vm_compute. reflexivity.
Defined.

Lemma load_channels_stops_without_index_witness :
  Load_channels int_of double_of ([channel3] ++ channel_anon :: [channel5])
    new_tables
  = Load_channels int_of double_of [channel3] new_tables.
Proof.
  exact (load_channels_stops_without_index int_of double_of [channel3]
           [channel5] channel_anon new_tables eq_refl).
Defined.



(** ** The motor command around the first frame *)

Section CommandFacts.
Context `{L : MavlinkLib}.

Lemma handle_all_other (now : Z) (ms : list mavlink_message_t)
    (a : actuators) :
  Forall (λ m, msgid m ≠ MAVLINK_MSG_ID_HIL_ACTUATOR_CONTROLS) ms →
  handle_all now ms a = a.
Proof.
  intros Hall. unfold handle_all. revert a.
  induction Hall as [| m ms Hm _ IH]; intros a; [reflexivity |].
  cbn [fold_left]. rewrite (handle_message_other now m a Hm). apply IH.
Qed.

(** X9: an actuator-control frame decoded at a time other than zero is
    what the ticks of the next 0.2 s publish: the motor command is the
    actuator reference the frame was decoded to, unchanged. *)
Theorem reference_published_while_fresh (t0 now : Z)
    (msg : mavlink_message_t) (p : plugin) :
  msgid msg = MAVLINK_MSG_ID_HIL_ACTUATOR_CONTROLS →
  t0 ≠ 0 → (Double (now - t0) <= 2 # 10)%Q →
  published (OnUpdate now None (set_act (handle_message t0 msg (act p)) p))
  = published p ++ [input_reference_ (handle_message t0 msg (act p))].
Proof.
  intros Hid Ht0 Hfresh. set (a' := handle_message t0 msg (act p)).
  assert (Hf : received_first_referenc_ a' = true
               ∧ last_actuator_time_ a' = t0).
  { unfold a', handle_message. rewrite Hid, Z.eqb_refl. split; reflexivity. }
  destruct Hf as [Hr Hl].
  unfold OnUpdate. cbn [pollForMAVLinkMessages published act set_act].
  rewrite Hr. f_equal. f_equal. unfold turning_velocities, stale. rewrite Hl.
  replace (t0 =? 0) with false by (symmetry; apply Z.eqb_neq; exact Ht0).
  replace (Qle_bool (Double (now - t0)) (2 # 10)) with true
    by (symmetry; apply Qle_bool_iff; exact Hfresh).
  cbn [orb negb]. apply map_id.
Qed.

(** X10: until a first actuator-control frame is decoded the plugin
    publishes no motor command at all: a tick whose datagram, if any,
    holds no such frame leaves the actuator state and what was published
    as they were. *)
Theorem no_command_before_first_frame (now : Z)
    (dgram : option (sockaddr_in * list Z)) (p : plugin) :
  received_first_referenc_ (act p) = false →
  (∀ src bytes, dgram = Some (src, bytes) →
     Forall (λ m, msgid m ≠ MAVLINK_MSG_ID_HIL_ACTUATOR_CONTROLS)
       (parsed_of bytes (chan0 p))) →
  published (OnUpdate now dgram p) = published p
  ∧ act (OnUpdate now dgram p) = act p.
Proof.
  intros Hfirst Hnone.
  assert (Hact : act (pollForMAVLinkMessages now dgram p) = act p).
  { destruct dgram as [[src bytes] |]; [| reflexivity].
    cbn [pollForMAVLinkMessages].
    destruct (poll_byte_parsed now bytes
                (set_link (set_srcaddr src (link p)) p)) as [_ Ha].
    cbn [chan0 act set_link] in Ha. rewrite Ha.
    apply handle_all_other. apply (Hnone src bytes eq_refl). }
  unfold OnUpdate. cbn [published act]. rewrite Hact, Hfirst.
  split; [apply poll_published | reflexivity].
Qed.

End CommandFacts.

Lemma reference_published_while_fresh_witness :
  published (OnUpdate (L := Mini.lib) 1100000000 None
               (set_act (handle_message (L := Mini.lib) 1000000000 armed_msg
                           unit_actuators) Mini.plugin0))
  = [100%Q :: repeat 0%Q 15].
Proof.
  exact (reference_published_while_fresh (L := Mini.lib) 1000000000
           1100000000 armed_msg (set_act unit_actuators Mini.plugin0)
           eq_refl ltac:(discriminate) ltac:(vm_compute; discriminate)).
Defined.

Lemma no_command_before_first_frame_witness :
  published (OnUpdate (L := Mini.lib) 1100000000
               (Some (gcs, Mini.frame [1; 2])) Mini.plugin0) = []
  ∧ act (OnUpdate (L := Mini.lib) 1100000000
           (Some (gcs, Mini.frame [1; 2])) Mini.plugin0) = new_actuators.
Proof.
  apply (no_command_before_first_frame (L := Mini.lib) 1100000000
           (Some (gcs, Mini.frame [1; 2])) Mini.plugin0 eq_refl).
  intros src bytes [= <- <-]. vm_compute.
  constructor; [discriminate | constructor].
Defined.

(** X20: the gyro for the optical flow is accumulated inside the rate
    gate of the sensor frame: with an update interval of zero no IMU
    callback changes the encoder state at all, so the accumulator stays
    where it is and stays at zero after a flow sample. *)
Theorem zero_interval_freezes_encoder (samples : list imu_sample)
    (f : flow_sample) (s : sensors) :
  (imu_update_interval_ s == 0)%Q →
  imu_run samples s = s
  ∧ optflow_gyro (imu_run samples (fst (OpticalFlowCallback_frames f s)))
    = Vector3_zero.
Proof.
  intros Hz.
  assert (Hfrozen : ∀ s0, (imu_update_interval_ s0 == 0)%Q →
                          imu_run samples s0 = s0).
  { intros s0 Hz0. induction samples as [| i samples IH]; [reflexivity |].
    cbn [imu_run fold_left]. rewrite imu_gated_out; [exact IH |].
    unfold imu_gate. apply Qeq_bool_iff in Hz0. rewrite Hz0. reflexivity. }
  split; [apply Hfrozen; exact Hz |].
  rewrite Hfrozen; [reflexivity | exact Hz].
Qed.

Lemma zero_interval_freezes_encoder_witness :
  imu_run [imu_at 10000000 roll_rate; imu_at 20000000 roll_rate]
    (set_imu_update_interval 0 new_sensors)
  = set_imu_update_interval 0 new_sensors.
Proof.
  exact (proj1 (zero_interval_freezes_encoder
                  [imu_at 10000000 roll_rate; imu_at 20000000 roll_rate]
                  flow0 (set_imu_update_interval 0 new_sensors)
                  ltac:(reflexivity))).
Defined.
